(** * circus.controller: the command-dispatch engine of the circus daemon

    A shallow embedding of [circus/controller.py] (classes [BaseController]
    and [Controller]) and the properties of its dispatch path.

    Python values that travel through the controller are JSON-shaped, so
    they are embedded as the inductive [json]; [None] is [JNull].  The
    controller object and the collaborators it drives (ZMQ stream, socket,
    periodic timer, signal handler, arbiter) are embedded as a state record
    whose [trace] lists, oldest first, the calls made on the collaborators.
    Methods are computations in a state-and-exception monad: a Python
    exception that leaves a method is the [Raise] result, and the state
    reached when it was raised is kept.  What Python and the libraries
    compute (the JSON codec, [lower()] on decoded text, formatting) is taken
    from an environment record and not fixed here. *)

From Stdlib Require Import String Ascii ZArith Bool List DecimalString.
From stdpp Require Import base option list gmap strings.
Import ListNotations.

#[local] Set Warnings "-register-all".

Local Open Scope string_scope.
Local Open Scope list_scope.

(** ** Byte strings *)

Module Bytes.

(** The characters [str.strip()] removes: space, \t, \n, \v, \f, \r. *)
Definition is_space (c : ascii) : bool :=
  let n := nat_of_ascii c in
  (n =? 32)%nat || ((9 <=? n)%nat && (n <=? 13)%nat).

Definition is_empty (s : string) : bool :=
  match s with EmptyString => true | String _ _ => false end.

Fixpoint lstrip (s : string) : string :=
  match s with
  | EmptyString => EmptyString
  | String c s' => if is_space c then lstrip s' else s
  end.

Fixpoint rstrip (s : string) : string :=
  match s with
  | EmptyString => EmptyString
  | String c s' =>
      let r := rstrip s' in
      if is_space c && is_empty r then EmptyString else String c r
  end.

(** [msg.strip()] *)
Definition strip (s : string) : string := rstrip (lstrip s).

Fixpoint all_space (s : string) : bool :=
  match s with
  | EmptyString => true
  | String c s' => is_space c && all_space s'
  end.

Definition first_char (s : string) : option ascii :=
  match s with
  | EmptyString => None
  | String c _ => Some c
  end.

Fixpoint last_char (s : string) : option ascii :=
  match s with
  | EmptyString => None
  | String c s' =>
      match s' with
      | EmptyString => Some c
      | String _ _ => last_char s'
      end
  end.

(** Neither the first nor the last character is whitespace. *)
Definition trimmed (s : string) : bool :=
  match first_char s, last_char s with
  | Some a, Some b => negb (is_space a) && negb (is_space b)
  | _, _ => true
  end.

Definition lower_char (c : ascii) : ascii :=
  let n := nat_of_ascii c in
  if (65 <=? n)%nat && (n <=? 90)%nat then ascii_of_nat (n + 32) else c.

(** [s.lower()] on ASCII text: only A-Z change.  What [lower()] does to
    other decoded text is left to the environment ([text_lower] below);
    this is the instance the concrete environment uses. *)
Fixpoint lower (s : string) : string :=
  match s with
  | EmptyString => EmptyString
  | String c s' => String (lower_char c) (lower s')
  end.

(** The double-quote character, for spelling JSON text. *)
Definition dq : string := String (ascii_of_nat 34) EmptyString.

Definition quoted (s : string) : string := dq +:+ s +:+ dq.

End Bytes.

(** ** Python values *)

Inductive json : Type :=
| JNull
| JBool (b : bool)
| JNum (n : Z)
| JStr (s : string)
| JList (l : list json)
| JObj (d : list (string * json)).

Module Py.

Definition is_none (v : json) : bool :=
  match v with JNull => true | _ => false end.

(** [v == "..."] for a string literal on the right. *)
Definition eq_str (v : json) (lit : string) : bool :=
  match v with JStr s => String.eqb s lit | _ => false end.

Fixpoint dict_get (k : string) (d : list (string * json)) : option json :=
  match d with
  | [] => None
  | (k', v) :: d' => if String.eqb k k' then Some v else dict_get k d'
  end.

(** [d[k] = v]: an existing key keeps its place, a new one goes last. *)
Fixpoint dict_set (k : string) (v : json) (d : list (string * json))
  : list (string * json) :=
  match d with
  | [] => [(k, v)]
  | (k', v') :: d' =>
      if String.eqb k k' then (k, v) :: d' else (k', v') :: dict_set k v d'
  end.

(** [d.update(p)] *)
Definition dict_update (d p : list (string * json)) : list (string * json) :=
  fold_left (fun acc kv => dict_set (fst kv) (snd kv) acc) p d.

End Py.

(** ** Exceptions *)

Inductive exn_kind : Type :=
| ValueError | KeyError | AttributeError | Empty
| MessageError | OSError | IOError | ZMQError | OtherError.

Record exn : Type := Exn { exn_class : exn_kind; exn_str : string }.

Inductive result (A : Type) : Type :=
| Ret (a : A)
| Raise (e : exn).

Arguments Ret {A} a.
Arguments Raise {A} e.

(** The error codes of [circus.commands.errors] that the controller names. *)
Inductive Errno : Type :=
| NOT_SPECIFIED | INVALID_JSON | UNKNOWN_COMMAND | MESSAGE_ERROR
| OS_ERROR | COMMAND_ERROR | BAD_MSG_DATA_ERROR.

(** ** The controller and its collaborators *)

(** A connection identity, the first part of a two-part ROUTER frame. *)
Definition ClientId : Type := string.

(** [(cid, msg)]; [cid] is [None] when no reply is possible. *)
Definition Job : Type := (option ClientId * string)%type.

(** Calls made on the collaborators.  [Send cid body] stands for the pair
    [stream.send(cid, zmq.SNDMORE); stream.send(body)] of [send_response];
    a [zmq.ZMQError] raised there is caught and logged in place, so it
    never changes what the controller does next. *)
Inductive Event : Type :=
| SocketBind
| StreamInit
| TimerStart
| TimerStop
| Send (cid : ClientId) (body : string)
| StreamFlush
| StreamClose
| SocketClose
| SysStop
| ArbiterStop
| ManageWatchers.

Definition is_send (ev : Event) : bool :=
  match ev with Send _ _ => true | _ => false end.

(** The responses handed to the stream, in order. *)
Definition sends (tr : list Event) : list Event := List.filter is_send tr.

Section Controller.

(** The supervision state the commands act on. *)
Context {Arbiter : Type}.

(** A command descriptor: [validate(props)] returns or raises,
    [execute(arbiter, props)] may change the arbiter and then returns a
    value or raises. *)
Record Command : Type := {
  validate : json -> option exn;
  execute : Arbiter -> json -> Arbiter * result json
}.

(** What the controller uses but does not define: the JSON codec, Python's
    formatting, the error-code table, and the collaborators' behaviour. *)
Record Env : Type := {
  json_loads : string -> option json;   (* [None]: ValueError *)
  json_dumps : json -> string;
  text_lower : string -> string;        (* text.lower(), whatever the script *)
  repr : json -> string;                (* "%r" on a decoded value *)
  repr_bytes : string -> string;        (* "%r" on a byte string *)
  py_str : json -> string;              (* str(v) *)
  format_exc : exn -> string;           (* traceback.format_exc() *)
  errno_code : Errno -> Z;
  arbiter_stop : Arbiter -> Arbiter;
  arbiter_manage_watchers : Arbiter -> Arbiter;
  stream_flush : option exn;            (* [Some e]: stream.flush() raises e *)
  stream_close : option exn             (* [Some e]: stream.close() raises e *)
}.

Record State : Type := {
  started : bool;
  jobs : list Job;
  commands : gmap string Command;
  arbiter : Arbiter;
  trace : list Event
}.

Definition set_started (b : bool) (st : State) : State :=
  {| started := b; jobs := jobs st; commands := commands st;
     arbiter := arbiter st; trace := trace st |}.

Definition set_jobs (q : list Job) (st : State) : State :=
  {| started := started st; jobs := q; commands := commands st;
     arbiter := arbiter st; trace := trace st |}.

Definition set_arbiter (a : Arbiter) (st : State) : State :=
  {| started := started st; jobs := jobs st; commands := commands st;
     arbiter := a; trace := trace st |}.

Definition set_trace (tr : list Event) (st : State) : State :=
  {| started := started st; jobs := jobs st; commands := commands st;
     arbiter := arbiter st; trace := tr |}.

(** *** The monad of methods *)

Definition M (A : Type) : Type := State -> State * result A.

Definition ret {A} (a : A) : M A := fun st => (st, Ret a).

Definition raise {A} (e : exn) : M A := fun st => (st, Raise e).

Definition bind {A B} (m : M A) (k : A -> M B) : M B :=
  fun st =>
    match m st with
    | (st', Ret a) => k a st'
    | (st', Raise e) => (st', Raise e)
    end.

(** [try: m except ...: h]; [h e = None] when no clause matches [e]. *)
Definition try_except {A} (m : M A) (h : exn -> option (M A)) : M A :=
  fun st =>
    match m st with
    | (st', Ret a) => (st', Ret a)
    | (st', Raise e) =>
        match h e with
        | Some k => k st'
        | None => (st', Raise e)
        end
    end.

Definition gets {A} (f : State -> A) : M A := fun st => (st, Ret (f st)).

Definition modify (f : State -> State) : M unit := fun st => (f st, Ret tt).

Definition emit (ev : Event) : M unit :=
  modify (fun st => set_trace (trace st ++ [ev]) st).

End Controller.

Arguments M : clear implicits.
Arguments Command : clear implicits.
Arguments Env : clear implicits.
Arguments State : clear implicits.

Declare Scope py_scope.
Delimit Scope py_scope with py.
Notation "x <- m ;; k" := (bind m (fun x => k))
  (at level 100, m at next level, right associativity) : py_scope.
Notation "m ;; k" := (bind m (fun _ => k))
  (at level 100, right associativity) : py_scope.

Local Open Scope py_scope.

(** ** [circus.commands]: envelopes *)

Module Envelope.

(** Modelled from the spec: [circus.commands.ok] is not part of this
    file.  Section 6: a success is [{status: ok, ...extra fields...}];
    sections 3 and 4.3: a mapping result is merged into the ok envelope and
    a result of nothing becomes the minimal ok envelope. *)
Definition ok (props : option (list (string * json))) : json :=
  let resp := [("status", JStr "ok")] in
  match props with
  | None => JObj resp
  | Some p => JObj (Py.dict_update resp p)
  end.

(** Modelled from the spec: [circus.commands.error] is not part of this
    file.  Section 6: a failure is
    [{status: error, reason: string, traceback: string|null, errno: integer}]. *)
Definition error (code : Errno -> Z) (reason : string) (tb : option string)
    (errno : Errno) : json :=
  JObj [("status", JStr "error");
        ("reason", JStr reason);
        ("traceback", match tb with Some t => JStr t | None => JNull end);
        ("errno", JNum (code errno))].

End Envelope.

(** ** [BaseController] and [Controller] *)

Section Methods.

Context {Arbiter : Type}.
Variable env : Env Arbiter.

(** [send_response(cid, msg, resp, cast)]; [msg] only feeds the log. *)
Definition send_response (cid : option ClientId) (msg : string) (resp : json)
    (cast : bool) : M Arbiter unit :=
  if cast then ret tt
  else
    match cid with
    | None => ret tt
    | Some c =>
        let resp :=
          match resp with
          | JStr text => text
          | _ => json_dumps env resp
          end in
        emit (Send c resp)
    end.

(** [send_error(cid, msg, reason, tb, cast, errno)]; it has no [return],
    so its value is [None]. *)
Definition send_error (cid : option ClientId) (msg reason : string)
    (tb : option string) (cast : bool) (errno : Errno) : M Arbiter json :=
  let resp := Envelope.error (errno_code env) reason tb errno in
  send_response cid msg resp cast ;;
  ret JNull.

(** [send_ok(cid, msg, props, cast)] *)
Definition send_ok (cid : option ClientId) (msg : string)
    (props : option (list (string * json))) (cast : bool) : M Arbiter unit :=
  let resp := Envelope.ok props in
  send_response cid msg resp cast.

(** [v.lower()]: only strings have the attribute. *)
Definition py_lower (v : json) : M Arbiter string :=
  match v with
  | JStr s => ret (text_lower env s)
  | _ => raise (Exn AttributeError "lower")
  end.

(** [v.get(key, default)]: only mappings have the attribute. *)
Definition py_get (v : json) (key : string) (default : json) : M Arbiter json :=
  match v with
  | JObj d => ret (match Py.dict_get key d with Some x => x | None => default end)
  | _ => raise (Exn AttributeError "get")
  end.

(** [self.commands[name]] *)
Definition lookup_command (name : string) : M Arbiter (Command Arbiter) :=
  cmds <- gets commands ;;
  match cmds !! name with
  | Some cmd => ret cmd
  | None => raise (Exn KeyError name)
  end.

(** [cmd.validate(properties); return cmd.execute(self.arbiter, properties)] *)
Definition run_command (cmd : Command Arbiter) (properties : json) : M Arbiter json :=
  fun st =>
    match validate cmd properties with
    | Some e => (st, Raise e)
    | None =>
        let '(a, r) := execute cmd (arbiter st) properties in
        (set_arbiter a st, r)
    end.

(** [Controller.execute_command] *)
Definition execute_command (cmd_name properties : json)
    (cid : option ClientId) (msg : string) (cast : bool) : M Arbiter json :=
  found <-
    try_except
      (name <- py_lower cmd_name ;;
       cmd <- lookup_command name ;;
       ret (inl cmd))
      (fun e =>
         match exn_class e with
         | KeyError =>
             let error_ := "unknown command: " +:+ repr env cmd_name in
             Some (r <- send_error cid msg error_ None cast UNKNOWN_COMMAND ;;
                   ret (inr r))
         | _ => None
         end) ;;
  match found with
  | inr r => ret r
  | inl cmd =>
      try_except (run_command cmd properties)
        (fun e =>
           match exn_class e with
           | MessageError =>
               Some (send_error cid msg (exn_str e) None cast MESSAGE_ERROR)
           | OSError =>
               Some (send_error cid msg (exn_str e) None cast OS_ERROR)
           | _ =>
               let tb := format_exc env e in
               let reason :=
                 "command " +:+ repr_bytes env msg +:+ ": " +:+ exn_str e in
               Some (send_error cid msg reason (Some tb) cast COMMAND_ERROR)
           end)
  end.

Definition call_flush : M Arbiter unit :=
  emit StreamFlush ;;
  match stream_flush env with
  | Some e => raise e
  | None => ret tt
  end.

Definition call_close : M Arbiter unit :=
  emit StreamClose ;;
  match stream_close env with
  | Some e => raise e
  | None => ret tt
  end.

Definition call_arbiter_stop : M Arbiter unit :=
  modify (fun st => set_arbiter (arbiter_stop env (arbiter st)) st) ;;
  emit ArbiterStop.

Definition call_manage_watchers : M Arbiter unit :=
  modify (fun st => set_arbiter (arbiter_manage_watchers env (arbiter st)) st) ;;
  emit ManageWatchers.

(** The tail of [dispatch], from [send_ok] on. *)
Definition dispatch_reply (cmd_name : json) (cid : option ClientId)
    (msg : string) (resp : list (string * json)) (cast : bool) : M Arbiter json :=
  send_ok cid msg (Some resp) cast ;;
  name <- py_lower cmd_name ;;
  if String.eqb name "quit" then
    (match cid with
     | Some _ => call_flush
     | None => ret tt
     end) ;;
    call_arbiter_stop ;;
    ret JNull
  else ret JNull.

(** [BaseController.dispatch] *)
Definition dispatch (job : Job) : M Arbiter json :=
  let '(cid, msg) := job in
  match json_loads env msg with
  | None => send_error cid msg "json invalid" None false INVALID_JSON
  | Some json_msg =>
      cmd_name <- py_get json_msg "command" JNull ;;
      properties <- py_get json_msg "properties" (JObj []) ;;
      msg_type <- py_get json_msg "msg_type" JNull ;;
      let cast := Py.eq_str msg_type "cast" in
      resp <- execute_command cmd_name properties cid msg cast ;;
      let resp := if Py.is_none resp then Envelope.ok None else resp in
      match resp with
      | JObj d => dispatch_reply cmd_name cid msg d cast
      | JList l => dispatch_reply cmd_name cid msg [("results", JList l)] cast
      | _ =>
          let msg :=
            "msg " +:+ repr_bytes env msg +:+ " tried to send a non-dict: "
              +:+ py_str env resp in
          send_error cid msg "server error" None cast BAD_MSG_DATA_ERROR
      end
  end.

(** [self.jobs.get(block=False)] *)
Definition queue_get : M Arbiter Job :=
  fun st =>
    match jobs st with
    | [] => (st, Raise (Exn Empty EmptyString))
    | job :: rest => (set_jobs rest st, Ret job)
    end.

(** [self.jobs.put(job, False)] on an unbounded queue. *)
Definition queue_put (job : Job) : M Arbiter unit :=
  modify (fun st => set_jobs (jobs st ++ [job]) st).

(** [BaseController.wakeup] *)
Definition base_wakeup : M Arbiter unit :=
  job <-
    try_except (j <- queue_get ;; ret (Some j))
      (fun e =>
         match exn_class e with
         | Empty => Some (ret None)
         | _ => None
         end) ;;
  match job with
  | Some j => dispatch j ;; ret tt
  | None => ret tt
  end.

(** [Controller.wakeup] *)
Definition wakeup : M Arbiter unit :=
  base_wakeup ;;
  call_manage_watchers.

(** [add_job(cid, msg)] *)
Definition add_job (cid : option ClientId) (msg : string) : M Arbiter unit :=
  queue_put (cid, msg) ;;
  wakeup.

(** [handle_message(raw_msg)] *)
Definition handle_message (raw_msg : Job) : M Arbiter unit :=
  let '(cid, msg) := raw_msg in
  let msg := Bytes.strip msg in
  if Bytes.is_empty msg then
    send_response cid msg (JStr "error: empty command") false
  else add_job cid msg.

(** [start()]; [initialize()] binds the socket and wraps it in a stream. *)
Definition start : M Arbiter unit :=
  emit SocketBind ;;
  emit StreamInit ;;
  emit TimerStart ;;
  modify (set_started true).

(** [isinstance(e, (IOError, zmq.ZMQError))] *)
Definition is_io_error (e : exn) : bool :=
  match exn_class e with
  | IOError | ZMQError => true
  | _ => false
  end.

(** [stop()] *)
Definition stop : M Arbiter unit :=
  is_started <- gets started ;;
  (if is_started then
     emit TimerStop ;;
     try_except (call_flush ;; call_close)
       (fun e => if is_io_error e then Some (ret tt) else None) ;;
     emit SocketClose
   else ret tt) ;;
  emit SysStop.

End Methods.

(** ** Vocabulary of the properties *)

(** [silent m]: whatever the state and the outcome, [m] sends no response. *)
Definition silent {Arbiter A : Type} (m : M Arbiter A) : Prop :=
  forall st, sends (trace (fst (m st))) = sends (trace st).

(** [json_msg.get('properties', {})] on a decoded mapping. *)
Definition properties_of (d : list (string * json)) : json :=
  match Py.dict_get "properties" d with Some v => v | None => JObj [] end.

(** [json_msg.get('msg_type') == "cast"] on a decoded mapping. *)
Definition declared_cast (d : list (string * json)) : bool :=
  Py.eq_str (match Py.dict_get "msg_type" d with Some v => v | None => JNull end)
    "cast".

Definition raises {A : Type} (r : result A) : bool :=
  match r with Raise _ => true | Ret _ => false end.

(** The request named [name] ends in a clause of [execute_command] that
    calls [send_error]: the registry has no such command, or [validate]
    raises, or [execute] raises. *)
Definition takes_error_path {Arbiter : Type} (env : Env Arbiter)
    (st : State Arbiter) (name : string) (properties : json) : bool :=
  match commands st !! text_lower env name with
  | None => true
  | Some cmd =>
      match validate cmd properties with
      | Some _ => true
      | None => raises (snd (execute cmd (arbiter st) properties))
      end
  end.

(** The wire text of an error envelope and of the minimal success envelope. *)
Definition error_text {Arbiter : Type} (env : Env Arbiter) (reason : string)
    (tb : option string) (errno : Errno) : string :=
  json_dumps env (Envelope.error (errno_code env) reason tb errno).

Definition ok_text {Arbiter : Type} (env : Env Arbiter) : string :=
  json_dumps env (JObj [("status", JStr "ok")]).

(** [Controller.__init__]: not started, an empty queue, the registry of
    [get_commands()], the arbiter it was given; no collaborator called yet. *)
Definition init {Arbiter : Type} (cmds : gmap string (Command Arbiter))
    (a : Arbiter) : State Arbiter :=
  {| started := false; jobs := []; commands := cmds; arbiter := a; trace := [] |}.

(** [keeps f m]: whatever the state and the outcome, [m] leaves the
    observation [f] of the state as it was. *)
Definition keeps {Arbiter A X : Type} (f : State Arbiter -> X)
    (m : M Arbiter A) : Prop :=
  forall st, f (fst (m st)) = f st.

(** The observation [f] does not see the call [ev]. *)
Definition quiet {Arbiter X : Type} (f : State Arbiter -> X) (ev : Event) : Prop :=
  forall st, f (set_trace (trace st ++ [ev]) st) = f st.

(** The observation [f] does not see the arbiter. *)
Definition ignores_arbiter {Arbiter X : Type} (f : State Arbiter -> X) : Prop :=
  forall a st, f (set_arbiter a st) = f st.

(** A response to [cid] in this mode is either not sent or not seen by [f]. *)
Definition unanswered {Arbiter X : Type} (f : State Arbiter -> X)
    (cid : option ClientId) (cast : bool) : Prop :=
  cast = true \/ forall c body, cid = Some c -> quiet f (Send c body).

(** A response addressed to another connection than [c]. *)
Definition sent_elsewhere (c : ClientId) (ev : Event) : bool :=
  match ev with
  | Send c' _ => negb (String.eqb c' c)
  | _ => false
  end.

(** The body decodes to a mapping whose command name lowers to [quit]:
    the test [cmd_name.lower() == "quit"] of [dispatch]. *)
Definition names_quit {Arbiter : Type} (env : Env Arbiter) (msg : string) : bool :=
  match json_loads env msg with
  | Some (JObj d) =>
      match Py.dict_get "command" d with
      | Some (JStr s) => String.eqb (text_lower env s) "quit"
      | _ => false
      end
  | _ => false
  end.

(** The wire text of the success envelope carrying [payload]. *)
Definition reply_text {Arbiter : Type} (env : Env Arbiter)
    (payload : list (string * json)) : string :=
  json_dumps env (Envelope.ok (Some payload)).

(** The calls of the quit sequence: [stream.flush()] and [arbiter.stop()]. *)
Definition is_shutdown (ev : Event) : bool :=
  match ev with StreamFlush | ArbiterStop => true | _ => false end.

Definition is_maintenance (ev : Event) : bool :=
  match ev with ManageWatchers => true | _ => false end.

(** A job as [handle_message] queues it: the body is not empty, and
    neither its first nor its last character is whitespace. *)
Definition well_framed (job : Job) : Prop :=
  Bytes.is_empty (snd job) = false /\ Bytes.trimmed (snd job) = true.

(** What [dispatch] passes to [send_ok] for the value a command returned;
    [None] for a value that is neither nothing, a mapping nor a list. *)
Definition success_payload (v : json) : option (list (string * json)) :=
  match v with
  | JNull => Some [("status", JStr "ok")]
  | JObj d => Some d
  | JList l => Some [("results", JList l)]
  | _ => None
  end.

(** The command registered under the lowered name validates the
    properties and its execution returns [v], leaving the arbiter [a]. *)
Definition executes_to {Arbiter : Type} (env : Env Arbiter)
    (st : State Arbiter) (name : string) (properties : json) (a : Arbiter)
    (v : json) : Prop :=
  exists cmd,
    commands st !! text_lower env name = Some cmd
    /\ validate cmd properties = None
    /\ execute cmd (arbiter st) properties = (a, Ret v).

(** The command registered under the lowered name raises [e], from
    [validate] or else from [execute]. *)
Definition fails_with {Arbiter : Type} (env : Env Arbiter)
    (st : State Arbiter) (name : string) (properties : json) (e : exn) : Prop :=
  exists cmd,
    commands st !! text_lower env name = Some cmd
    /\ (validate cmd properties = Some e
        \/ (validate cmd properties = None
            /\ snd (execute cmd (arbiter st) properties) = Raise e)).

(** The wire text of the error envelope the three [except] clauses of
    [execute_command] build for [e]. *)
Definition failure_text {Arbiter : Type} (env : Env Arbiter) (msg : string)
    (e : exn) : string :=
  match exn_class e with
  | MessageError => error_text env (exn_str e) None MESSAGE_ERROR
  | OSError => error_text env (exn_str e) None OS_ERROR
  | _ =>
      error_text env ("command " +:+ repr_bytes env msg +:+ ": " +:+ exn_str e)
        (Some (format_exc env e)) COMMAND_ERROR
  end.

(** The arbiter a request leaves behind: what [execute] made of it when
    the command is registered and [validate] passes, the arbiter as it was
    otherwise. *)
Definition arbiter_after_command {Arbiter : Type} (env : Env Arbiter)
    (st : State Arbiter) (name : string) (properties : json) : Arbiter :=
  match commands st !! text_lower env name with
  | Some cmd =>
      match validate cmd properties with
      | None => fst (execute cmd (arbiter st) properties)
      | Some _ => arbiter st
      end
  | None => arbiter st
  end.

(** The body decodes to a mapping that declares itself a cast. *)
Definition asks_cast {Arbiter : Type} (env : Env Arbiter) (msg : string) : bool :=
  match json_loads env msg with
  | Some (JObj d) => declared_cast d
  | _ => false
  end.

(** ** A concrete environment

    A small registry over a toy arbiter, a serializer, and the decoder's
    graph on the handful of documents the examples send. *)

Module Sample.

(** The toy arbiter: is it running, and how many maintenance passes ran. *)
Record Arb : Type := { alive : bool; passes : nat }.

Definition fresh : Arb := {| alive := true; passes := 0 |}.

Definition comma_join (parts : list string) : string :=
  match parts with
  | [] => EmptyString
  | p :: ps => fold_left (fun acc q => acc +:+ ", " +:+ q) ps p
  end.

Fixpoint dumps (v : json) : string :=
  match v with
  | JNull => "null"
  | JBool true => "true"
  | JBool false => "false"
  | JNum n => NilZero.string_of_int (Z.to_int n)
  | JStr s => Bytes.quoted s
  | JList l => "[" +:+ comma_join (List.map dumps l) +:+ "]"
  | JObj d =>
      "{" +:+ comma_join
                (List.map (fun kv => let '(k, x) := kv in
                                     Bytes.quoted k +:+ ": " +:+ dumps x) d)
          +:+ "}"
  end.

(** "%r" of a decoded value: text decoded by Python 2 is unicode. *)
Definition py_repr (v : json) : string :=
  match v with
  | JStr text => "u'" +:+ text +:+ "'"
  | JNull => "None"
  | _ => dumps v
  end.

Definition member (k v : string) : string :=
  Bytes.quoted k +:+ ": " +:+ Bytes.quoted v.

Definition doc_empty : string := "{}".
Definition doc_quit : string := "{" +:+ member "command" "quit" +:+ "}".
Definition doc_QUIT : string := "{" +:+ member "command" "QUIT" +:+ "}".
Definition doc_list : string := "{" +:+ member "command" "list" +:+ "}".
(** The list request between a tab and a space, and a space and a
    newline. *)
Definition doc_list_padded : string :=
  String (ascii_of_nat 9)
    (" " +:+ doc_list +:+ " " +:+ String (ascii_of_nat 10) EmptyString).
Definition doc_nosuch : string := "{" +:+ member "command" "nosuch" +:+ "}".
Definition doc_spawn : string := "{" +:+ member "command" "spawn" +:+ "}".
Definition doc_cast_nosuch : string :=
  "{" +:+ member "command" "nosuch" +:+ ", " +:+ member "msg_type" "cast" +:+ "}".
Definition doc_array : string := "[]".
(** A cast request cut off before its closing brace. *)
Definition doc_cast_truncated : string :=
  "{" +:+ member "msg_type" "cast" +:+ ", " +:+ member "command" "quit".

Definition documents : list (string * json) :=
  [ (doc_empty, JObj []);
    (doc_quit, JObj [("command", JStr "quit")]);
    (doc_QUIT, JObj [("command", JStr "QUIT")]);
    (doc_list, JObj [("command", JStr "list")]);
    (doc_nosuch, JObj [("command", JStr "nosuch")]);
    (doc_spawn, JObj [("command", JStr "spawn")]);
    (doc_cast_nosuch, JObj [("command", JStr "nosuch"); ("msg_type", JStr "cast")]);
    (doc_array, JList []) ].

(** [json.loads] on the documents above; any other text is taken as
    unparseable. *)
Definition loads (text : string) : option json := Py.dict_get text documents.

Definition codes (e : Errno) : Z :=
  match e with
  | NOT_SPECIFIED => 0
  | INVALID_JSON => 1
  | UNKNOWN_COMMAND => 2
  | COMMAND_ERROR => 3
  | BAD_MSG_DATA_ERROR => 4
  | MESSAGE_ERROR => 100
  | OS_ERROR => 200
  end.

Definition env_with (flush close : option exn) : Env Arb :=
  {| json_loads := loads;
     json_dumps := dumps;
     text_lower := Bytes.lower;
     repr := py_repr;
     repr_bytes := fun text => "'" +:+ text +:+ "'";
     py_str := dumps;
     format_exc := fun e => "Traceback (most recent call last): " +:+ exn_str e;
     errno_code := codes;
     arbiter_stop := fun a => {| alive := false; passes := passes a |};
     arbiter_manage_watchers := fun a => {| alive := alive a; passes := S (passes a) |};
     stream_flush := flush;
     stream_close := close |}.

Definition env : Env Arb := env_with None None.

Definition cmd_quit : Command Arb :=
  {| validate := fun _ => None; execute := fun a _ => (a, Ret JNull) |}.

Definition cmd_list : Command Arb :=
  {| validate := fun _ => None;
     execute := fun a _ => (a, Ret (JList [JStr "a"; JStr "b"])) |}.

(** A command whose execution fails in the operating system. *)
Definition cmd_spawn : Command Arb :=
  {| validate := fun _ => None;
     execute := fun a _ => (a, Raise (Exn OSError "No such file or directory")) |}.

Definition registry : gmap string (Command Arb) :=
  {[ "quit" := cmd_quit; "list" := cmd_list; "spawn" := cmd_spawn ]}.

(** A registry whose quit command fails while executing. *)
Definition registry_failing_quit : gmap string (Command Arb) :=
  {[ "quit" := cmd_spawn; "list" := cmd_list ]}.

(** A command that returns a bare string. *)
Definition cmd_bye : Command Arb :=
  {| validate := fun _ => None;
     execute := fun a _ => (a, Ret (JStr "bye")) |}.

(** A command that refuses its properties. *)
Definition cmd_strict : Command Arb :=
  {| validate := fun _ => Some (Exn MessageError "message invalid");
     execute := fun a _ => ({| alive := alive a; passes := 7 |}, Ret JNull) |}.

(** A command that changes the arbiter and then fails. *)
Definition cmd_crash : Command Arb :=
  {| validate := fun _ => None;
     execute := fun a _ =>
       ({| alive := alive a; passes := 7 |}, Raise (Exn OtherError "boom")) |}.

Definition registry_odd : gmap string (Command Arb) :=
  {[ "quit" := cmd_bye; "list" := cmd_strict; "spawn" := cmd_crash ]}.

Definition controller (cmds : gmap string (Command Arb)) (is_started : bool)
    (queue : list Job) : State Arb :=
  {| started := is_started; jobs := queue; commands := cmds;
     arbiter := fresh; trace := [] |}.

Definition client : option ClientId := Some "client-1".

End Sample.

(** * Properties *)

(** ** Stripping *)

Module BytesFacts.
Import Bytes.

Lemma is_empty_true (s : string) : is_empty s = true -> s = EmptyString.
Proof. destruct s; [reflexivity | discriminate]. Qed.

Lemma is_empty_rstrip (s : string) : is_empty (rstrip s) = all_space s.
Proof.
  induction s as [|c s IH]; simpl; [reflexivity|].
  rewrite <- IH.
  destruct (is_space c), (is_empty (rstrip s)); reflexivity.
Qed.

Lemma all_space_lstrip (s : string) : all_space (lstrip s) = all_space s.
Proof.
  induction s as [|c s IH]; simpl; [reflexivity|].
  destruct (is_space c) eqn:Hc; simpl; [exact IH | now rewrite Hc].
Qed.

(** [not msg] after stripping holds exactly for the all-whitespace bodies. *)
Lemma is_empty_strip (s : string) : is_empty (strip s) = all_space s.
Proof. unfold strip. now rewrite is_empty_rstrip, all_space_lstrip. Qed.

Lemma strip_all_space (s : string) : all_space s = true -> strip s = EmptyString.
Proof. intros H. apply is_empty_true. now rewrite is_empty_strip. Qed.

Lemma rstrip_idem (s : string) : rstrip (rstrip s) = rstrip s.
Proof.
  induction s as [|c s IH]; simpl; [reflexivity|].
  destruct (is_space c && is_empty (rstrip s)) eqn:Hc; simpl; [reflexivity|].
  now rewrite IH, Hc.
Qed.

Lemma lstrip_head (s : string) :
  lstrip s = EmptyString \/
  exists c t, lstrip s = String c t /\ is_space c = false.
Proof.
  induction s as [|c s IH]; simpl; [now left|].
  destruct (is_space c) eqn:Hc; [exact IH|].
  right. now exists c, s.
Qed.

Lemma lstrip_strip (s : string) : lstrip (strip s) = strip s.
Proof.
  unfold strip.
  destruct (lstrip_head s) as [-> | (c & t & -> & Hc)]; simpl; [reflexivity|].
  now rewrite Hc; simpl; rewrite Hc.
Qed.

(** Stripping twice strips once. *)
Lemma strip_idem (s : string) : strip (strip s) = strip s.
Proof.
  unfold strip at 1. rewrite lstrip_strip.
  unfold strip. apply rstrip_idem.
Qed.

(** What [strip] returns, stated without [strip]: it cuts whitespace, and
    only whitespace, off both ends. *)

Lemma append_nil (s : string) : EmptyString +:+ s = s.
Proof. reflexivity. Qed.

Lemma append_cons (c : ascii) (s t : string) :
  String c s +:+ t = String c (s +:+ t).
Proof. reflexivity. Qed.

Lemma lstrip_decompose (s : string) :
  exists pre, s = pre +:+ lstrip s /\ all_space pre = true.
Proof.
  induction s as [|c s (pre & Hs & Hpre)]; simpl.
  - now exists EmptyString.
  - destruct (is_space c) eqn:Hc.
    + exists (String c pre). rewrite append_cons, <- Hs. simpl.
      now rewrite Hc, Hpre.
    + now exists EmptyString.
Qed.

Lemma rstrip_decompose (s : string) :
  exists post, s = rstrip s +:+ post /\ all_space post = true.
Proof.
  induction s as [|c s (post & Hs & Hpost)]; simpl.
  - now exists EmptyString.
  - destruct (is_space c && is_empty (rstrip s)) eqn:Hc.
    + apply andb_prop in Hc as [Hc Hr]. apply is_empty_true in Hr.
      rewrite Hr, append_nil in Hs. subst s.
      exists (String c post). rewrite append_nil. simpl. now rewrite Hc, Hpost.
    + exists post. rewrite append_cons, <- Hs. now split.
Qed.

Lemma strip_decompose (s : string) :
  exists pre post,
    s = pre +:+ strip s +:+ post
    /\ all_space pre = true /\ all_space post = true.
Proof.
  destruct (lstrip_decompose s) as (pre & Hs & Hpre).
  destruct (rstrip_decompose (lstrip s)) as (post & Ht & Hpost).
  exists pre, post. unfold strip. now rewrite <- Ht.
Qed.

Lemma last_char_rstrip (s : string) :
  match last_char (rstrip s) with
  | Some c => is_space c = false
  | None => True
  end.
Proof.
  induction s as [|c s IH]; simpl; [exact I|].
  destruct (is_space c && is_empty (rstrip s)) eqn:Hc; simpl; [exact I|].
  destruct (rstrip s) as [|c' r]; [|exact IH].
  simpl in Hc. now rewrite andb_true_r in Hc.
Qed.

Lemma strip_trimmed (s : string) : trimmed (strip s) = true.
Proof.
  unfold strip.
  destruct (lstrip_head s) as [-> | (c & t & -> & Hc)]; [reflexivity|].
  pose proof (last_char_rstrip (String c t)) as Hlast.
  cbn [rstrip] in *. rewrite Hc in *. cbn [andb] in *.
  unfold trimmed. cbn [first_char].
  destruct (last_char (String c (rstrip t))) as [b|]; [|reflexivity].
  now rewrite Hc, Hlast.
Qed.

End BytesFacts.

(** ** Computations that hand nothing to the stream *)

Section Silence.

Context {Arbiter : Type}.
Variable env : Env Arbiter.

Lemma sends_app (tr tr' : list Event) :
  sends (tr ++ tr') = sends tr ++ sends tr'.
Proof.
  unfold sends. induction tr as [|ev tr IH]; simpl; [reflexivity|].
  destruct (is_send ev); simpl; now rewrite IH.
Qed.

Lemma sends_snoc_other (tr : list Event) (ev : Event) :
  is_send ev = false -> sends (tr ++ [ev]) = sends tr.
Proof.
  intros H. rewrite sends_app. unfold sends at 2. simpl. rewrite H.
  apply app_nil_r.
Qed.

Lemma silent_ret {A} (a : A) : silent (@ret Arbiter A a).
Proof. intros st. reflexivity. Qed.

Lemma silent_raise {A} (e : exn) : silent (@raise Arbiter A e).
Proof. intros st. reflexivity. Qed.

Lemma silent_gets {A} (f : State Arbiter -> A) : silent (gets f).
Proof. intros st. reflexivity. Qed.

Lemma silent_bind {A B} (m : M Arbiter A) (k : A -> M Arbiter B) :
  silent m -> (forall a, silent (k a)) -> silent (bind m k).
Proof.
  intros Hm Hk st. unfold bind. specialize (Hm st).
  destruct (m st) as [st' [a|e]]; simpl in *; [|exact Hm].
  now rewrite Hk.
Qed.

Lemma silent_try_except {A} (m : M Arbiter A) (h : exn -> option (M Arbiter A)) :
  silent m -> (forall e k, h e = Some k -> silent k) -> silent (try_except m h).
Proof.
  intros Hm Hh st. unfold try_except. specialize (Hm st).
  destruct (m st) as [st' [a|e]]; simpl in *; [exact Hm|].
  destruct (h e) as [k|] eqn:He; simpl; [|exact Hm].
  now rewrite (Hh e k He).
Qed.

Lemma silent_emit (ev : Event) : is_send ev = false -> silent (@emit Arbiter ev).
Proof. intros H st. simpl. now apply sends_snoc_other. Qed.

Lemma silent_modify (f : State Arbiter -> State Arbiter) :
  (forall st, trace (f st) = trace st) -> silent (modify f).
Proof. intros H st. simpl. now rewrite H. Qed.

Lemma silent_send_response_cast cid msg resp :
  silent (send_response env cid msg resp true).
Proof. apply silent_ret. Qed.

Lemma silent_send_response_anonymous msg resp cast :
  silent (send_response env None msg resp cast).
Proof. destruct cast; apply silent_ret. Qed.

Lemma silent_send_error_cast cid msg reason tb errno :
  silent (send_error env cid msg reason tb true errno).
Proof.
  apply silent_bind; [apply silent_send_response_cast | intros; apply silent_ret].
Qed.

Lemma silent_send_ok_cast cid msg props : silent (send_ok env cid msg props true).
Proof. apply silent_send_response_cast. Qed.

Lemma silent_py_lower (v : json) : silent (py_lower env v).
Proof. destruct v; first [apply silent_ret | apply silent_raise]. Qed.

Lemma silent_py_get (v : json) key default : silent (@py_get Arbiter v key default).
Proof. destruct v; first [apply silent_ret | apply silent_raise]. Qed.

Lemma silent_lookup_command (name : string) : silent (@lookup_command Arbiter name).
Proof.
  apply silent_bind; [apply silent_gets|].
  intros cmds. destruct (cmds !! name); [apply silent_ret | apply silent_raise].
Qed.

Lemma silent_run_command (cmd : Command Arbiter) (properties : json) :
  silent (run_command cmd properties).
Proof.
  intros st. unfold run_command.
  destruct (validate cmd properties); [reflexivity|].
  destruct (execute cmd (arbiter st) properties); reflexivity.
Qed.

Lemma silent_call_flush : silent (call_flush env).
Proof.
  apply silent_bind; [now apply silent_emit|].
  intros _. destruct (stream_flush env); [apply silent_raise | apply silent_ret].
Qed.

Lemma silent_call_arbiter_stop : silent (call_arbiter_stop env).
Proof.
  apply silent_bind; [now apply silent_modify | intros _; now apply silent_emit].
Qed.

Lemma silent_call_manage_watchers : silent (call_manage_watchers env).
Proof.
  apply silent_bind; [now apply silent_modify | intros _; now apply silent_emit].
Qed.

(** In cast mode no branch of [execute_command] sends anything. *)
Lemma silent_execute_command_cast cmd_name properties cid msg :
  silent (execute_command env cmd_name properties cid msg true).
Proof.
  unfold execute_command. apply silent_bind.
  - apply silent_try_except.
    + apply silent_bind; [apply silent_py_lower|]. intros name.
      apply silent_bind; [apply silent_lookup_command | intros; apply silent_ret].
    + intros e k Hk. destruct (exn_class e); try discriminate.
      injection Hk as <-.
      apply silent_bind; [apply silent_send_error_cast | intros; apply silent_ret].
  - intros [cmd|r]; [|apply silent_ret].
    apply silent_try_except; [apply silent_run_command|].
    intros e k Hk.
    destruct (exn_class e); injection Hk as <-; apply silent_send_error_cast.
Qed.

Lemma silent_dispatch_reply_cast cmd_name cid msg resp :
  silent (dispatch_reply env cmd_name cid msg resp true).
Proof.
  unfold dispatch_reply.
  apply silent_bind; [apply silent_send_ok_cast|]. intros _.
  apply silent_bind; [apply silent_py_lower|]. intros name.
  destruct (String.eqb name "quit"); [|apply silent_ret].
  apply silent_bind.
  - destruct cid; [apply silent_call_flush | apply silent_ret].
  - intros _. apply silent_bind; [apply silent_call_arbiter_stop|].
    intros; apply silent_ret.
Qed.

End Silence.

(** ** The two responses of an error path *)

Section Dispatch.

Context {Arbiter : Type}.
Variable env : Env Arbiter.

Lemma execute_command_error_path (st : State Arbiter) (c : ClientId)
    (msg name : string) (properties : json) :
  takes_error_path env st name properties = true ->
  exists st1 reason tb errno,
    execute_command env (JStr name) properties (Some c) msg false st =
      (set_trace (trace st ++ [Send c (error_text env reason tb errno)]) st1,
       Ret JNull)
    /\ trace st1 = trace st
    /\ In errno [UNKNOWN_COMMAND; MESSAGE_ERROR; OS_ERROR; COMMAND_ERROR].
Proof.
  unfold takes_error_path, execute_command, try_except, bind, py_lower,
    lookup_command, gets, ret, raise, run_command, send_error, send_response,
    emit, modify, bind, ret.
  cbn.
  destruct (commands st !! text_lower env name) as [cmd|] eqn:Hcmd; cbn.
  - destruct (validate cmd properties) as [e|] eqn:Hv; intros Hp.
    + exists st. destruct e as [k s]; destruct k; cbn;
        do 3 eexists; (split; [reflexivity|]); simpl; tauto.
    + destruct (execute cmd (arbiter st) properties) as [a [v|e]] eqn:He;
        simpl in Hp; [discriminate|].
      exists (set_arbiter a st). destruct e as [k s]; destruct k; cbn;
        do 3 eexists; (split; [reflexivity|]); simpl; tauto.
  - intros _. exists st. do 3 eexists. split; [reflexivity|]. simpl; tauto.
Qed.

Lemma dispatch_reply_minimal_ok (st : State Arbiter) (c : ClientId)
    (msg name : string) :
  exists tail,
    trace (fst (dispatch_reply env (JStr name) (Some c) msg
                  [("status", JStr "ok")] false st)) =
      trace st ++ [Send c (ok_text env)] ++ tail
    /\ sends tail = [].
Proof.
  unfold dispatch_reply, send_ok, send_response, call_flush, call_arbiter_stop,
    bind, py_lower, emit, modify, ret, raise. simpl.
  destruct (String.eqb (text_lower env name) "quit"); simpl.
  - destruct (stream_flush env); simpl.
    + exists [StreamFlush]. rewrite <- app_assoc. now split.
    + exists [StreamFlush; ArbiterStop]. rewrite <- !app_assoc. now split.
  - exists []. now split.
Qed.

End Dispatch.

(** ** Error paths of [execute_command] *)

(** C9: a call-mode job (identity present, not cast) whose handling ends in
    an error clause of [execute_command] (unknown command, [MessageError],
    [OSError], or any other exception of [validate] or [execute]) gets two
    responses: the error envelope, then the minimal success envelope
    [{status: ok}]; nothing else is sent for it.  The error helpers return
    [None], and [dispatch] reads [None] as a success without data. *)
Theorem error_path_sends_error_then_ok {Arbiter : Type} (env : Env Arbiter)
    (st : State Arbiter) (c : ClientId) (msg : string)
    (d : list (string * json)) (name : string) :
  json_loads env msg = Some (JObj d) ->
  Py.dict_get "command" d = Some (JStr name) ->
  declared_cast d = false ->
  takes_error_path env st name (properties_of d) = true ->
  exists reason tb errno tail,
    trace (fst (dispatch env (Some c, msg) st)) =
      trace st ++ [Send c (error_text env reason tb errno); Send c (ok_text env)]
        ++ tail
    /\ sends tail = []
    /\ In errno [UNKNOWN_COMMAND; MESSAGE_ERROR; OS_ERROR; COMMAND_ERROR].
Proof.
  intros Hloads Hname Hcast Hpath.
  destruct (execute_command_error_path env st c msg name (properties_of d) Hpath)
    as (st1 & reason & tb & errno & Hexec & Htr & Herrno).
  unfold dispatch. rewrite Hloads.
  unfold py_get, bind at 1 2 3, ret. rewrite Hname.
  fold (properties_of d). unfold declared_cast in Hcast. rewrite Hcast.
  unfold bind at 1. rewrite Hexec. cbn [Py.is_none Envelope.ok].
  destruct (dispatch_reply_minimal_ok env
              (set_trace (trace st ++ [Send c (error_text env reason tb errno)]) st1)
              c msg name) as (tail & Htail & Hsilent).
  exists reason, tb, errno, tail.
  rewrite Htail. cbn [trace set_trace]. rewrite <- app_assoc.
  now repeat split.
Qed.

Lemma error_path_sends_error_then_ok_witness :
  exists reason tb errno tail,
    trace (fst (dispatch Sample.env (Some "client-1", Sample.doc_spawn)
                  (Sample.controller Sample.registry true []))) =
      [] ++ [Send "client-1" (error_text Sample.env reason tb errno);
             Send "client-1" (ok_text Sample.env)] ++ tail
    /\ sends tail = []
    /\ In errno [UNKNOWN_COMMAND; MESSAGE_ERROR; OS_ERROR; COMMAND_ERROR].
Proof.
  apply (error_path_sends_error_then_ok Sample.env
           (Sample.controller Sample.registry true []) "client-1"
           Sample.doc_spawn [("command", JStr "spawn")] "spawn");
    vm_compute; reflexivity.
Defined.

(** ** Cast requests *)

(** C4, as the code has it: a message whose body decodes to a mapping with
    [msg_type] equal to [cast] is never answered, whether lookup,
    validation or execution succeed, fail or raise out of [dispatch], and
    also for an unknown command.  A body that does not decode has no
    [msg_type] to read: it is answered with the [INVALID_JSON] error
    envelope whenever an identity is present. *)
Theorem cast_request_never_answered {Arbiter : Type} (env : Env Arbiter)
    (st : State Arbiter) (cid : option ClientId) (msg : string) :
  (forall d, json_loads env msg = Some (JObj d) ->
             declared_cast d = true ->
             sends (trace (fst (dispatch env (cid, msg) st))) = sends (trace st))
  /\ (json_loads env msg = None ->
      forall c, cid = Some c ->
        dispatch env (cid, msg) st =
          (set_trace
             (trace st ++ [Send c (error_text env "json invalid" None INVALID_JSON)])
             st,
           Ret JNull)).
Proof.
  split.
  - intros d Hloads Hcast.
    unfold dispatch. rewrite Hloads.
    unfold py_get, bind at 1 2 3, ret.
    unfold declared_cast in Hcast. rewrite Hcast.
    apply silent_bind; [apply silent_execute_command_cast|].
    intros resp.
    destruct (if Py.is_none resp then Envelope.ok None else resp);
      first [apply silent_dispatch_reply_cast | apply silent_send_error_cast].
  - intros Hloads c ->. unfold dispatch. now rewrite Hloads.
Qed.

Lemma cast_request_never_answered_witness :
  sends (trace (fst (dispatch Sample.env (Sample.client, Sample.doc_cast_nosuch)
                       (Sample.controller Sample.registry true [])))) = []
  /\ dispatch Sample.env (Sample.client, "{") (Sample.controller Sample.registry true []) =
       (set_trace [Send "client-1" (error_text Sample.env "json invalid" None INVALID_JSON)]
          (Sample.controller Sample.registry true []),
        Ret JNull).
Proof.
  split.
  - apply (proj1 (cast_request_never_answered Sample.env
                    (Sample.controller Sample.registry true [])
                    Sample.client Sample.doc_cast_nosuch)
             [("command", JStr "nosuch"); ("msg_type", JStr "cast")]);
      reflexivity.
  - apply (proj2 (cast_request_never_answered Sample.env
                    (Sample.controller Sample.registry true [])
                    Sample.client "{"));
      reflexivity.
Defined.

(** C4 as worded also covers bodies that cannot be parsed.  This request
    spells [msg_type: cast] but is cut off before its closing brace:
    decoding fails, and the caller is sent the [INVALID_JSON] error. *)
Lemma truncated_cast_request_is_answered :
  json_loads Sample.env Sample.doc_cast_truncated = None
  /\ sends (trace (fst (dispatch Sample.env
                          (Sample.client, Sample.doc_cast_truncated)
                          (Sample.controller Sample.registry true []))))
     = [Send "client-1" (error_text Sample.env "json invalid" None INVALID_JSON)]
  /\ sends (trace (fst (dispatch Sample.env
                          (Sample.client, Sample.doc_cast_truncated)
                          (Sample.controller Sample.registry true []))))
     <> [].
Proof.
  split; [reflexivity|].
  split; [vm_compute; reflexivity | vm_compute; discriminate].
Qed.

(** ** Requests without a usable command name *)

(** C5: what the code does for a call-mode document without a [command]
    field, such as [{}]: [cmd_name] is [None], [cmd_name.lower()] raises
    [AttributeError] inside the [try] that only catches [KeyError], and the
    exception leaves [dispatch] before anything is sent.  No
    [UNKNOWN_COMMAND] response is produced. *)
Theorem missing_command_raises {Arbiter : Type} (env : Env Arbiter)
    (st : State Arbiter) (cid : option ClientId) (msg : string)
    (d : list (string * json)) :
  json_loads env msg = Some (JObj d) ->
  Py.dict_get "command" d = None ->
  dispatch env (cid, msg) st = (st, Raise (Exn AttributeError "lower")).
Proof.
  intros Hloads Hcmd. unfold dispatch. rewrite Hloads.
  unfold py_get, bind at 1 2 3, ret. rewrite Hcmd.
  reflexivity.
Qed.

Lemma missing_command_raises_witness :
  dispatch Sample.env (Sample.client, Sample.doc_empty)
    (Sample.controller Sample.registry true []) =
  (Sample.controller Sample.registry true [], Raise (Exn AttributeError "lower")).
Proof.
  apply (missing_command_raises Sample.env
           (Sample.controller Sample.registry true [])
           Sample.client Sample.doc_empty []); reflexivity.
Defined.

(** C2: jobs on which [dispatch] does raise.  For the document [{}] the
    [AttributeError] of [None.lower()] leaves [execute_command], [dispatch],
    [wakeup], [add_job] and [handle_message]; for the document [[]], which
    decodes to a list, [json_msg.get] raises [AttributeError] in [dispatch]
    itself.  Neither is turned into an error response. *)
Theorem dispatch_can_raise :
  dispatch Sample.env (Sample.client, Sample.doc_empty)
    (Sample.controller Sample.registry true []) =
    (Sample.controller Sample.registry true [], Raise (Exn AttributeError "lower"))
  /\ handle_message Sample.env (Sample.client, Sample.doc_empty)
       (Sample.controller Sample.registry true []) =
       (Sample.controller Sample.registry true [], Raise (Exn AttributeError "lower"))
  /\ dispatch Sample.env (Sample.client, Sample.doc_array)
       (Sample.controller Sample.registry true []) =
       (Sample.controller Sample.registry true [], Raise (Exn AttributeError "get")).
Proof. split; [|split]; vm_compute; reflexivity. Qed.

(** ** Unknown commands and quit *)

(** C1: what the code sends for the call-mode request
    [{command: nosuch}] when the registry has no such command: the
    [UNKNOWN_COMMAND] error envelope, whose reason carries the name, and
    then a second response, the minimal success envelope. *)
Theorem unknown_command_answered_twice :
  dispatch Sample.env (Sample.client, Sample.doc_nosuch)
    (Sample.controller Sample.registry true []) =
  (set_trace
     [Send "client-1"
        (error_text Sample.env "unknown command: u'nosuch'" None UNKNOWN_COMMAND);
      Send "client-1" (ok_text Sample.env)]
     (Sample.controller Sample.registry true []),
   Ret JNull).
Proof. vm_compute; reflexivity. Qed.

(** C3: a quit request whose execution raises [OSError].  The error
    envelope is sent, then the success envelope, the stream is flushed and
    [arbiter.stop()] is called: the arbiter is stopped after a failed quit. *)
Theorem failed_quit_stops_arbiter :
  dispatch Sample.env (Sample.client, Sample.doc_quit)
    (Sample.controller Sample.registry_failing_quit true []) =
  ({| started := true; jobs := [];
      commands := Sample.registry_failing_quit;
      arbiter := {| Sample.alive := false; Sample.passes := 0 |};
      trace :=
        [Send "client-1"
           (error_text Sample.env "No such file or directory" None OS_ERROR);
         Send "client-1" (ok_text Sample.env);
         StreamFlush;
         ArbiterStop] |},
   Ret JNull).
Proof. vm_compute; reflexivity. Qed.

(** ** The dispatch loop *)

(** X20: on an empty queue a wakeup only runs the maintenance hook, and
    returns: the [Empty] of the non-blocking [get] is caught. *)
Lemma wakeup_empty_queue {Arbiter : Type} (env : Env Arbiter) (st : State Arbiter) :
  jobs st = [] ->
  wakeup env st =
    (set_trace (trace st ++ [ManageWatchers])
       (set_arbiter (arbiter_manage_watchers env (arbiter st)) st),
     Ret tt).
Proof.
  intros Hq. unfold wakeup, base_wakeup, try_except, bind, queue_get.
  rewrite Hq. reflexivity.
Qed.

(** C6: a wakeup that pops the job [{}].  [dispatch] raises, the exception
    leaves [Controller.wakeup] before [arbiter.manage_watchers()] is
    reached: the job is gone from the queue, the trace has no
    [ManageWatchers], the arbiter has seen no maintenance pass. *)
Theorem wakeup_skips_maintenance_when_dispatch_raises :
  wakeup Sample.env
    (Sample.controller Sample.registry true [(Sample.client, Sample.doc_empty)]) =
  ({| started := true; jobs := [];
      commands := Sample.registry;
      arbiter := {| Sample.alive := true; Sample.passes := 0 |};
      trace := [] |},
   Raise (Exn AttributeError "lower")).
Proof. vm_compute; reflexivity. Qed.

(** A wakeup on a non-empty queue pops the oldest job and dispatches it;
    the maintenance hook follows when [dispatch] returns. *)
Lemma wakeup_dispatch_returns {Arbiter : Type} (env : Env Arbiter)
    (st st' : State Arbiter) (job : Job) (rest : list Job) (v : json) :
  jobs st = job :: rest ->
  dispatch env job (set_jobs rest st) = (st', Ret v) ->
  wakeup env st =
    (set_trace (trace st' ++ [ManageWatchers])
       (set_arbiter (arbiter_manage_watchers env (arbiter st')) st'),
     Ret tt).
Proof.
  intros Hq Hd. unfold wakeup, base_wakeup, try_except, bind, queue_get.
  rewrite Hq. cbn. rewrite Hd. reflexivity.
Qed.

Lemma wakeup_dispatch_raises {Arbiter : Type} (env : Env Arbiter)
    (st st' : State Arbiter) (job : Job) (rest : list Job) (e : exn) :
  jobs st = job :: rest ->
  dispatch env job (set_jobs rest st) = (st', Raise e) ->
  wakeup env st = (st', Raise e).
Proof.
  intros Hq Hd. unfold wakeup, base_wakeup, try_except, bind, queue_get.
  rewrite Hq. cbn. rewrite Hd. reflexivity.
Qed.

(** ** Framing *)

Lemma handle_message_empty {Arbiter : Type} (env : Env Arbiter)
    (st : State Arbiter) (cid : option ClientId) :
  handle_message env (cid, EmptyString) st =
    (match cid with
     | Some c => set_trace (trace st ++ [Send c "error: empty command"]) st
     | None => st
     end,
     Ret tt).
Proof. destruct cid; reflexivity. Qed.

(** C7: a frame with an empty body is answered at once, when an identity
    is present, with the plain text [error: empty command], which is not
    passed through the serializer; the job queue is left as it was, and
    neither the queue nor the decoder takes part. *)
Theorem empty_message_answered_in_place {Arbiter : Type} (env : Env Arbiter)
    (st : State Arbiter) (cid : option ClientId) :
  handle_message env (cid, EmptyString) st =
    (match cid with
     | Some c => set_trace (trace st ++ [Send c "error: empty command"]) st
     | None => st
     end,
     Ret tt)
  /\ jobs (fst (handle_message env (cid, EmptyString) st)) = jobs st.
Proof.
  split; [apply handle_message_empty|].
  rewrite handle_message_empty. now destruct cid.
Qed.

Lemma handle_message_blank {Arbiter : Type} (env : Env Arbiter)
    (st : State Arbiter) (cid : option ClientId) (body : string) :
  Bytes.all_space body = true ->
  handle_message env (cid, body) st = handle_message env (cid, EmptyString) st.
Proof.
  intros H. unfold handle_message.
  now rewrite (BytesFacts.strip_all_space body H).
Qed.

Lemma handle_message_enqueues {Arbiter : Type} (env : Env Arbiter)
    (st : State Arbiter) (cid : option ClientId) (body : string) :
  Bytes.all_space body = false ->
  handle_message env (cid, body) st = add_job env cid (Bytes.strip body) st.
Proof.
  intros H. unfold handle_message.
  now rewrite BytesFacts.is_empty_strip, H.
Qed.

(** With nothing else queued, [add_job] dispatches the job it was given. *)
Lemma add_job_empty_queue {Arbiter : Type} (env : Env Arbiter)
    (st : State Arbiter) (cid : option ClientId) (msg : string) :
  jobs st = [] ->
  add_job env cid msg st =
    (dispatch env (cid, msg) ;; call_manage_watchers env)%py st.
Proof.
  intros Hq. destruct st as [s q cmds a tr]. simpl in Hq. subst q.
  unfold add_job, queue_put, wakeup, base_wakeup, try_except, queue_get,
    modify, bind.
  cbn -[dispatch call_manage_watchers].
  unfold set_jobs. cbn [started jobs commands arbiter trace app].
  match goal with
  | |- context [dispatch env (cid, msg) ?s0] =>
      destruct (dispatch env (cid, msg) s0) as [st' [v|e]]; reflexivity
  end.
Qed.

(** C10: the body is stripped before anything else.  A body of
    whitespace only is handled exactly as the empty body: the plain text
    [error: empty command] is the reply when an identity is present and
    the queue is left as it was.  Any other body is queued in its stripped
    form, so the frame is handled exactly as the frame carrying the
    stripped body, and when it is dispatched the decoder reads the stripped
    bytes.  The stripped form is the original payload without the
    whitespace at its ends: the payload is whitespace, then the stripped
    form, then whitespace, and the stripped form is not empty and neither
    begins nor ends with whitespace. *)
Theorem body_is_stripped_first {Arbiter : Type} (env : Env Arbiter)
    (st : State Arbiter) (cid : option ClientId) (body : string) :
  (Bytes.all_space body = true ->
     handle_message env (cid, body) st = handle_message env (cid, EmptyString) st
     /\ handle_message env (cid, body) st =
          (match cid with
           | Some c => set_trace (trace st ++ [Send c "error: empty command"]) st
           | None => st
           end,
           Ret tt)
     /\ jobs (fst (handle_message env (cid, body) st)) = jobs st)
  /\ (Bytes.all_space body = false ->
     handle_message env (cid, body) st =
       (queue_put (cid, Bytes.strip body) ;; wakeup env)%py st
     /\ handle_message env (cid, body) st =
          handle_message env (cid, Bytes.strip body) st
     /\ (jobs st = [] ->
         handle_message env (cid, body) st =
           (dispatch env (cid, Bytes.strip body) ;; call_manage_watchers env)%py st)
     /\ Bytes.is_empty (Bytes.strip body) = false
     /\ Bytes.trimmed (Bytes.strip body) = true
     /\ exists pre post,
          body = pre +:+ Bytes.strip body +:+ post
          /\ Bytes.all_space pre = true /\ Bytes.all_space post = true).
Proof.
  split; intros H.
  - rewrite (handle_message_blank env st cid body H).
    rewrite handle_message_empty.
    repeat split. now destruct cid.
  - rewrite (handle_message_enqueues env st cid body H).
    split; [reflexivity|]. split; [|split; [|split; [|split]]].
    + unfold handle_message.
      rewrite BytesFacts.strip_idem, BytesFacts.is_empty_strip, H.
      reflexivity.
    + intros Hq. now apply add_job_empty_queue.
    + now rewrite BytesFacts.is_empty_strip.
    + apply BytesFacts.strip_trimmed.
    + apply BytesFacts.strip_decompose.
Qed.

Lemma body_is_stripped_first_witness :
  handle_message Sample.env (Sample.client, "  ")
    (Sample.controller Sample.registry true []) =
    handle_message Sample.env (Sample.client, EmptyString)
      (Sample.controller Sample.registry true [])
  /\ handle_message Sample.env (Sample.client, Sample.doc_list_padded)
       (Sample.controller Sample.registry true []) =
       handle_message Sample.env (Sample.client, Sample.doc_list)
         (Sample.controller Sample.registry true [])
  /\ jobs (fst (handle_message Sample.env (Sample.client, Sample.doc_list_padded)
                  (Sample.controller Sample.registry true
                     [(None, Sample.doc_quit)]))) =
       [(Sample.client, Sample.doc_list)].
Proof.
  split; [|split].
  - exact (proj1 (proj1 (body_is_stripped_first Sample.env
                           (Sample.controller Sample.registry true [])
                           Sample.client "  ")
                    eq_refl)).
  - exact (proj1 (proj2 (proj2 (body_is_stripped_first Sample.env
                                  (Sample.controller Sample.registry true [])
                                  Sample.client Sample.doc_list_padded)
                           eq_refl))).
  - rewrite (proj1 (proj2 (body_is_stripped_first Sample.env
                             (Sample.controller Sample.registry true
                                [(None, Sample.doc_quit)])
                             Sample.client Sample.doc_list_padded)
                      eq_refl)).
    reflexivity.
Defined.

(** ** Lifecycle *)

(** [start()] binds, starts the timer and marks the controller started. *)
Lemma start_marks_started {Arbiter : Type} (st : State Arbiter) :
  start st =
    (set_started true
       (set_trace (trace st ++ [SocketBind; StreamInit; TimerStart]) st),
     Ret tt).
Proof.
  unfold start, emit, modify, bind, set_started, set_trace.
  cbn [started jobs commands arbiter trace].
  now rewrite <- !app_assoc.
Qed.

(** C8, as the code has it.  On a controller that was never started,
    [stop()] leaves timer, stream and socket alone but still stops the
    signal handler, and leaves [started] false.  On a started controller it
    stops the timer, flushes and closes the stream, where an [IOError] or
    [zmq.ZMQError] of the flush (which skips the stream's close) or of the
    close is swallowed, closes the socket, and then stops the signal
    handler, in that order and in every such case. *)
Theorem stop_teardown {Arbiter : Type} (env : Env Arbiter) (st : State Arbiter) :
  (started st = false ->
     stop env st = (set_trace (trace st ++ [SysStop]) st, Ret tt))
  /\ (started st = true ->
      (forall e, stream_flush env = Some e -> is_io_error e = true) ->
      (forall e, stream_close env = Some e -> is_io_error e = true) ->
      stop env st =
        (set_trace
           (trace st ++ [TimerStop; StreamFlush]
              ++ match stream_flush env with
                 | None => [StreamClose]
                 | Some _ => []
                 end
              ++ [SocketClose; SysStop])
           st,
         Ret tt)).
Proof.
  destruct st as [s q cmds a tr]; cbn [started trace].
  split.
  - intros ->. reflexivity.
  - intros -> Hflush Hclose.
    unfold stop, try_except, call_flush, call_close, emit, modify, gets, raise,
      ret, bind, set_trace.
    cbn [started jobs commands arbiter trace fst snd].
    destruct (stream_flush env) as [e|] eqn:Hf.
    + rewrite (Hflush e eq_refl). cbn.
      now rewrite <- !app_assoc.
    + destruct (stream_close env) as [e|] eqn:Hc.
      * rewrite (Hclose e eq_refl). cbn.
        now rewrite <- !app_assoc.
      * cbn. now rewrite <- !app_assoc.
Qed.

Lemma stop_teardown_witness :
  stop (Sample.env_with (Some (Exn ZMQError "Socket operation on non-socket")) None)
    (Sample.controller Sample.registry true []) =
    (set_trace [TimerStop; StreamFlush; SocketClose; SysStop]
       (Sample.controller Sample.registry true []),
     Ret tt)
  /\ stop Sample.env (Sample.controller Sample.registry false []) =
       (set_trace [SysStop] (Sample.controller Sample.registry false []), Ret tt).
Proof.
  split.
  - apply (proj2 (stop_teardown
                    (Sample.env_with
                       (Some (Exn ZMQError "Socket operation on non-socket")) None)
                    (Sample.controller Sample.registry true []))).
    + reflexivity.
    + intros e He. injection He as <-. reflexivity.
    + intros e He. discriminate He.
  - apply (proj1 (stop_teardown Sample.env
                    (Sample.controller Sample.registry false []))).
    reflexivity.
Defined.

(** C8 as worded makes [stop()] a no-op on a controller that was never
    started.  It is not: the signal handler is stopped. *)
Lemma stop_before_start_is_not_a_noop :
  stop Sample.env (Sample.controller Sample.registry false []) <>
    (Sample.controller Sample.registry false [], Ret tt)
  /\ trace (fst (stop Sample.env (Sample.controller Sample.registry false [])))
     = [SysStop].
Proof. split; [vm_compute; discriminate | reflexivity]. Qed.

(** * Further properties of the controller *)

(** ** What a computation leaves alone *)

Section Keeps.

Context {Arbiter X : Type}.
Variable env : Env Arbiter.
Variable f : State Arbiter -> X.
Hypothesis f_arbiter : ignores_arbiter f.

Lemma keeps_ret {A} (a : A) : keeps f (@ret Arbiter A a).
Proof. intros st. reflexivity. Qed.

Lemma keeps_raise {A} (e : exn) : keeps f (@raise Arbiter A e).
Proof. intros st. reflexivity. Qed.

Lemma keeps_gets {A} (g : State Arbiter -> A) : keeps f (gets g).
Proof. intros st. reflexivity. Qed.

Lemma keeps_bind {A B} (m : M Arbiter A) (k : A -> M Arbiter B) :
  keeps f m -> (forall a, keeps f (k a)) -> keeps f (bind m k).
Proof.
  intros Hm Hk st. unfold bind. specialize (Hm st).
  destruct (m st) as [st' [a|e]]; simpl in *; [|exact Hm].
  now rewrite Hk.
Qed.

Lemma keeps_try_except {A} (m : M Arbiter A) (h : exn -> option (M Arbiter A)) :
  keeps f m -> (forall e k, h e = Some k -> keeps f k) -> keeps f (try_except m h).
Proof.
  intros Hm Hh st. unfold try_except. specialize (Hm st).
  destruct (m st) as [st' [a|e]]; simpl in *; [exact Hm|].
  destruct (h e) as [k|] eqn:He; simpl; [|exact Hm].
  now rewrite (Hh e k He).
Qed.

Lemma keeps_emit (ev : Event) : quiet f ev -> keeps f (emit ev).
Proof. intros H st. apply H. Qed.

Lemma keeps_send_response cid msg resp cast :
  unanswered f cid cast -> keeps f (send_response env cid msg resp cast).
Proof.
  intros [-> | H]; unfold send_response; [apply keeps_ret|].
  destruct cast; [apply keeps_ret|].
  destruct cid as [c|]; [|apply keeps_ret]. now apply keeps_emit, H.
Qed.

Lemma keeps_send_error cid msg reason tb cast errno :
  unanswered f cid cast -> keeps f (send_error env cid msg reason tb cast errno).
Proof.
  intros H. apply keeps_bind; [now apply keeps_send_response|].
  intros; apply keeps_ret.
Qed.

Lemma keeps_send_ok cid msg props cast :
  unanswered f cid cast -> keeps f (send_ok env cid msg props cast).
Proof. apply keeps_send_response. Qed.

Lemma keeps_py_lower (v : json) : keeps f (py_lower env v).
Proof. destruct v; first [apply keeps_ret | apply keeps_raise]. Qed.

Lemma keeps_py_get (v : json) key default : keeps f (@py_get Arbiter v key default).
Proof. destruct v; first [apply keeps_ret | apply keeps_raise]. Qed.

Lemma keeps_lookup_command (name : string) : keeps f (@lookup_command Arbiter name).
Proof.
  apply keeps_bind; [apply keeps_gets|].
  intros cmds. destruct (cmds !! name); [apply keeps_ret | apply keeps_raise].
Qed.

Lemma keeps_run_command (cmd : Command Arbiter) (properties : json) :
  keeps f (run_command cmd properties).
Proof.
  intros st. unfold run_command.
  destruct (validate cmd properties); [reflexivity|].
  destruct (execute cmd (arbiter st) properties); simpl. apply f_arbiter.
Qed.

Lemma keeps_execute_command cmd_name properties cid msg cast :
  unanswered f cid cast ->
  keeps f (execute_command env cmd_name properties cid msg cast).
Proof.
  intros H. unfold execute_command. apply keeps_bind.
  - apply keeps_try_except.
    + apply keeps_bind; [apply keeps_py_lower|]. intros name.
      apply keeps_bind; [apply keeps_lookup_command | intros; apply keeps_ret].
    + intros e k Hk. destruct (exn_class e); try discriminate.
      injection Hk as <-.
      apply keeps_bind; [now apply keeps_send_error | intros; apply keeps_ret].
  - intros [cmd|r]; [|apply keeps_ret].
    apply keeps_try_except; [apply keeps_run_command|].
    intros e k Hk.
    destruct (exn_class e); injection Hk as <-; now apply keeps_send_error.
Qed.

Lemma keeps_call_flush : quiet f StreamFlush -> keeps f (call_flush env).
Proof.
  intros H. apply keeps_bind; [now apply keeps_emit|].
  intros _. destruct (stream_flush env); [apply keeps_raise | apply keeps_ret].
Qed.

Lemma keeps_call_close : quiet f StreamClose -> keeps f (call_close env).
Proof.
  intros H. apply keeps_bind; [now apply keeps_emit|].
  intros _. destruct (stream_close env); [apply keeps_raise | apply keeps_ret].
Qed.

Lemma keeps_call_arbiter_stop : quiet f ArbiterStop -> keeps f (call_arbiter_stop env).
Proof.
  intros H. apply keeps_bind; [|intros _; now apply keeps_emit].
  intros st. apply f_arbiter.
Qed.

Lemma keeps_call_manage_watchers :
  quiet f ManageWatchers -> keeps f (call_manage_watchers env).
Proof.
  intros H. apply keeps_bind; [|intros _; now apply keeps_emit].
  intros st. apply f_arbiter.
Qed.

Lemma keeps_dispatch_reply cmd_name cid msg resp cast :
  unanswered f cid cast ->
  (quiet f StreamFlush /\ quiet f ArbiterStop) \/
  (forall s, cmd_name = JStr s -> String.eqb (text_lower env s) "quit" = false) ->
  keeps f (dispatch_reply env cmd_name cid msg resp cast).
Proof.
  intros Hs Hq. unfold dispatch_reply.
  apply keeps_bind; [now apply keeps_send_ok|]. intros _.
  destruct cmd_name as [|b|n|s|l|d]; try (intros st; reflexivity).
  unfold py_lower. intros st. unfold bind, ret at 1.
  destruct (String.eqb (text_lower env s) "quit") eqn:Hn; [|reflexivity].
  destruct Hq as [[Hf Ha] | Hq]; [|now rewrite (Hq s eq_refl) in Hn].
  revert st. apply keeps_bind.
  - destruct cid; [now apply keeps_call_flush | apply keeps_ret].
  - intros _. apply keeps_bind; [now apply keeps_call_arbiter_stop|].
    intros; apply keeps_ret.
Qed.

(** [dispatch] leaves [f] alone when [f] cannot see a response to this
    job, and cannot see the quit sequence or the job is no quit. *)
Lemma keeps_dispatch (cid : option ClientId) (msg : string) :
  (forall c body, cid = Some c -> quiet f (Send c body)) ->
  (quiet f StreamFlush /\ quiet f ArbiterStop) \/ names_quit env msg = false ->
  keeps f (dispatch env (cid, msg)).
Proof.
  intros Hs Hq.
  assert (Hu : forall cast, unanswered f cid cast).
  { intros cast. right. exact Hs. }
  unfold dispatch.
  destruct (json_loads env msg) as [json_msg|] eqn:Hloads;
    [|now apply keeps_send_error].
  destruct json_msg as [|b|n|s|l|d]; try (intros st; reflexivity).
  unfold py_get. intros st. unfold bind at 1 2 3, ret.
  revert st. apply keeps_bind; [now apply keeps_execute_command|].
  intros resp.
  assert (Hquit :
    (quiet f StreamFlush /\ quiet f ArbiterStop) \/
    (forall s, match Py.dict_get "command" d with Some x => x | None => JNull end
               = JStr s -> String.eqb (text_lower env s) "quit" = false)).
  { destruct Hq as [Hq | Hq]; [now left | right].
    intros s' Hs'. unfold names_quit in Hq. rewrite Hloads in Hq.
    destruct (Py.dict_get "command" d); [now subst | discriminate]. }
  destruct (if Py.is_none resp then Envelope.ok None else resp);
    first [now apply keeps_dispatch_reply | now apply keeps_send_error].
Qed.

End Keeps.

(** ** The shape of a wakeup *)

Section Wakeup.

Context {Arbiter : Type}.
Variable env : Env Arbiter.

(** A wakeup takes the oldest job off the queue, dispatches it, and runs
    the maintenance hook if [dispatch] returned. *)
Lemma wakeup_unfold (st : State Arbiter) :
  wakeup env st =
    match jobs st with
    | [] => call_manage_watchers env st
    | job :: rest =>
        (dispatch env job ;; call_manage_watchers env)%py (set_jobs rest st)
    end.
Proof.
  unfold wakeup, base_wakeup, try_except, queue_get, bind at 1 2 3.
  destruct (jobs st) as [|job rest]; [reflexivity|].
  cbn -[dispatch call_manage_watchers]. unfold bind.
  destruct (dispatch env job (set_jobs rest st)) as [st' [v|e]]; reflexivity.
Qed.

Lemma add_job_unfold (st : State Arbiter) (cid : option ClientId) (msg : string) :
  add_job env cid msg st = wakeup env (set_jobs (jobs st ++ [(cid, msg)]) st).
Proof. reflexivity. Qed.

Lemma handle_message_unfold (st : State Arbiter) (cid : option ClientId)
    (body : string) :
  handle_message env (cid, body) st =
    if Bytes.all_space body
    then send_response env cid EmptyString (JStr "error: empty command") false st
    else wakeup env (set_jobs (jobs st ++ [(cid, Bytes.strip body)]) st).
Proof.
  unfold handle_message. rewrite BytesFacts.is_empty_strip.
  destruct (Bytes.all_space body) eqn:H; [|reflexivity].
  now rewrite (BytesFacts.strip_all_space body H).
Qed.

End Wakeup.

(** ** Observations no method of the message path changes *)

Section Frames.

Context {Arbiter X : Type}.
Variable env : Env Arbiter.
Variable f : State Arbiter -> X.
Hypothesis f_arbiter : ignores_arbiter f.
Hypothesis f_trace : forall ev, quiet f ev.
Hypothesis f_jobs : forall q st, f (set_jobs q st) = f st.

Lemma frame_dispatch (job : Job) : keeps f (dispatch env job).
Proof.
  destruct job as [cid msg]. apply keeps_dispatch; [exact f_arbiter| |].
  - intros; apply f_trace.
  - left. split; apply f_trace.
Qed.

Lemma frame_wakeup : keeps f (wakeup env).
Proof.
  intros st. rewrite wakeup_unfold.
  destruct (jobs st) as [|job rest].
  - now apply keeps_call_manage_watchers.
  - rewrite <- (f_jobs rest st).
    apply keeps_bind; [apply frame_dispatch|].
    intros _. now apply keeps_call_manage_watchers.
Qed.

Lemma frame_handle_message (raw : Job) : keeps f (handle_message env raw).
Proof.
  destruct raw as [cid body]. intros st. rewrite handle_message_unfold.
  destruct (Bytes.all_space body).
  - apply keeps_send_response. right. intros; apply f_trace.
  - rewrite frame_wakeup. apply f_jobs.
Qed.

End Frames.

(** ** The job queue *)

Lemma keeps_jobs_dispatch {Arbiter : Type} (env : Env Arbiter) (job : Job) :
  keeps jobs (dispatch env job).
Proof.
  destruct job as [cid msg]. apply keeps_dispatch.
  - intros a st. reflexivity.
  - intros c body _ st. reflexivity.
  - left. split; intros st; reflexivity.
Qed.

Lemma keeps_jobs_manage_watchers {Arbiter : Type} (env : Env Arbiter) :
  keeps jobs (call_manage_watchers env).
Proof. intros st. reflexivity. Qed.

Lemma jobs_after_wakeup {Arbiter : Type} (env : Env Arbiter) (st : State Arbiter) :
  jobs (fst (wakeup env st)) = tl (jobs st).
Proof.
  rewrite wakeup_unfold. destruct (jobs st) as [|job rest] eqn:Hq.
  - now rewrite keeps_jobs_manage_watchers.
  - change (tl (job :: rest)) with (jobs (set_jobs rest st)).
    apply (keeps_bind jobs); [apply keeps_jobs_dispatch|].
    intros _. apply keeps_jobs_manage_watchers.
Qed.

(** X1: a wakeup takes exactly the oldest job off the queue, and nothing
    off an empty queue, whether [dispatch] returns or raises; the jobs
    behind it keep their order. *)
Theorem wakeup_takes_the_oldest_job {Arbiter : Type} (env : Env Arbiter)
    (st : State Arbiter) :
  jobs (fst (wakeup env st)) = tl (jobs st).
Proof. apply jobs_after_wakeup. Qed.

Lemma jobs_after_handle_message {Arbiter : Type} (env : Env Arbiter)
    (st : State Arbiter) (cid : option ClientId) (body : string) :
  jobs (fst (handle_message env (cid, body) st)) =
    if Bytes.all_space body then jobs st
    else tl (jobs st ++ [(cid, Bytes.strip body)]).
Proof.
  rewrite handle_message_unfold. destruct (Bytes.all_space body).
  - destruct cid; reflexivity.
  - now rewrite jobs_after_wakeup.
Qed.

(** X2: a frame with a blank body leaves the queue as it was; any other
    frame is queued, stripped, behind the jobs already waiting, and the one
    wakeup it triggers takes the oldest job off.  So an arrival never
    changes the length of the queue, and an empty queue is empty again
    afterwards. *)
Theorem arrival_queues_behind_backlog {Arbiter : Type} (env : Env Arbiter)
    (st : State Arbiter) (cid : option ClientId) (body : string) :
  jobs (fst (handle_message env (cid, body) st)) =
    (if Bytes.all_space body then jobs st
     else tl (jobs st ++ [(cid, Bytes.strip body)]))
  /\ length (jobs (fst (handle_message env (cid, body) st))) = length (jobs st).
Proof.
  split; [apply jobs_after_handle_message|].
  rewrite jobs_after_handle_message.
  destruct (Bytes.all_space body); [reflexivity|].
  destruct (jobs st) as [|job rest]; [reflexivity|].
  simpl. rewrite length_app. simpl. lia.
Qed.

(** X3: with jobs waiting, the wakeup an arrival triggers dispatches the
    oldest waiting job, not the one that just arrived. *)
Theorem arrival_dispatches_the_oldest_job {Arbiter : Type} (env : Env Arbiter)
    (st : State Arbiter) (cid : option ClientId) (body : string)
    (job : Job) (rest : list Job) :
  Bytes.all_space body = false ->
  jobs st = job :: rest ->
  handle_message env (cid, body) st =
    (dispatch env job ;; call_manage_watchers env)%py
      (set_jobs (rest ++ [(cid, Bytes.strip body)]) st).
Proof.
  intros Hb Hq. rewrite handle_message_unfold, Hb, wakeup_unfold.
  cbn [jobs set_jobs]. rewrite Hq. reflexivity.
Qed.

Lemma arrival_dispatches_the_oldest_job_witness :
  handle_message Sample.env (Sample.client, " " +:+ Sample.doc_list)
    (Sample.controller Sample.registry true [(None, Sample.doc_quit)]) =
    (dispatch Sample.env (None, Sample.doc_quit) ;;
     call_manage_watchers Sample.env)%py
      (set_jobs ([] ++ [(Sample.client, Bytes.strip (" " +:+ Sample.doc_list))])
         (Sample.controller Sample.registry true [(None, Sample.doc_quit)])).
Proof.
  apply (arrival_dispatches_the_oldest_job Sample.env
           (Sample.controller Sample.registry true [(None, Sample.doc_quit)])
           Sample.client (" " +:+ Sample.doc_list) (None, Sample.doc_quit) []);
    reflexivity.
Defined.

Lemma well_framed_strip (cid : option ClientId) (body : string) :
  Bytes.all_space body = false -> well_framed (cid, Bytes.strip body).
Proof.
  intros H. split; simpl.
  - now rewrite BytesFacts.is_empty_strip.
  - apply BytesFacts.strip_trimmed.
Qed.

Lemma Forall_tl {A : Type} (P : A -> Prop) (l : list A) :
  Forall P l -> Forall P (tl l).
Proof. intros H. destruct H; [constructor | assumption]. Qed.

(** X4: every body on the queue is non-empty, and neither its first nor
    its last character is whitespace.  This holds for a new controller and is kept by
    [handle_message], [wakeup], [start] and [stop]; so [dispatch], which
    only ever gets jobs popped from the queue, never decodes an empty or
    unstripped body. *)
Theorem queue_holds_framed_jobs {Arbiter : Type} (env : Env Arbiter)
    (cmds : gmap string (Command Arbiter)) (a : Arbiter) :
  Forall well_framed (jobs (init cmds a))
  /\ forall st : State Arbiter,
       Forall well_framed (jobs st) ->
       (forall raw, Forall well_framed (jobs (fst (handle_message env raw st))))
       /\ Forall well_framed (jobs (fst (wakeup env st)))
       /\ Forall well_framed (jobs (fst (start st)))
       /\ Forall well_framed (jobs (fst (stop env st))).
Proof.
  split; [constructor|].
  intros st Hst. repeat split.
  - intros [cid body].
    rewrite jobs_after_handle_message.
    destruct (Bytes.all_space body) eqn:Hb; [exact Hst|].
    apply Forall_tl, Forall_app. split; [exact Hst|].
    constructor; [now apply well_framed_strip | constructor].
  - rewrite jobs_after_wakeup. now apply Forall_tl.
  - exact Hst.
  - replace (jobs (fst (stop env st))) with (jobs st); [exact Hst|].
    symmetry. revert st Hst. intros st _.
    unfold stop. apply (keeps_bind jobs); [apply keeps_gets|].
    intros b. apply keeps_bind; [|intros _ st'; reflexivity].
    destruct b; [|apply keeps_ret].
    apply keeps_bind; [intros st'; reflexivity|]. intros _.
    apply keeps_bind; [|intros _ st'; reflexivity].
    apply keeps_try_except.
    + apply keeps_bind; [apply keeps_call_flush; intros st'; reflexivity|].
      intros _. apply keeps_call_close; intros st'; reflexivity.
    + intros e k Hk. destruct (is_io_error e); [|discriminate].
      injection Hk as <-. apply keeps_ret.
Qed.

Lemma queue_holds_framed_jobs_witness :
  Forall well_framed
    (jobs (fst (handle_message Sample.env
                  (Sample.client, Sample.doc_list_padded)
                  (Sample.controller Sample.registry true
                     [(Sample.client, Sample.doc_list);
                      (Sample.client, Sample.doc_quit)])))).
Proof.
  apply (proj1 (proj2 (queue_holds_framed_jobs Sample.env Sample.registry
                         Sample.fresh)
                  (Sample.controller Sample.registry true
                     [(Sample.client, Sample.doc_list);
                      (Sample.client, Sample.doc_quit)])
                  ltac:(repeat constructor))
           (Sample.client, Sample.doc_list_padded)).
Defined.

(** ** Events a job cannot cause *)

Lemma filter_snoc_false {A : Type} (p : A -> bool) (l : list A) (x : A) :
  p x = false -> List.filter p (l ++ [x]) = List.filter p l.
Proof.
  intros H. rewrite List.filter_app. simpl. rewrite H. apply app_nil_r.
Qed.

Lemma quiet_filter {Arbiter : Type} (p : Event -> bool) (ev : Event) :
  p ev = false ->
  quiet (fun st : State Arbiter => List.filter p (trace st)) ev.
Proof. intros H st. simpl. now apply filter_snoc_false. Qed.

(** X5: the maintenance hook runs exactly once in a wakeup that returns,
    after the dispatch, and not at all in a wakeup that raises; [dispatch]
    itself never runs it. *)
Theorem maintenance_runs_once_per_wakeup {Arbiter : Type} (env : Env Arbiter)
    (st : State Arbiter) :
  List.filter is_maintenance (trace (fst (wakeup env st))) =
    List.filter is_maintenance (trace st)
      ++ (if raises (snd (wakeup env st)) then [] else [ManageWatchers])
  /\ (raises (snd (wakeup env st)) = false ->
      exists tr, trace (fst (wakeup env st)) = tr ++ [ManageWatchers]).
Proof.
  rewrite wakeup_unfold. destruct (jobs st) as [|[cid msg] rest].
  - split; [|intros _; now exists (trace st)].
    simpl. now rewrite List.filter_app.
  - assert (Hd : keeps (fun s : State Arbiter => List.filter is_maintenance (trace s))
                   (dispatch env (cid, msg))).
    { apply keeps_dispatch.
      - intros a s. reflexivity.
      - intros c body _. now apply quiet_filter.
      - left. split; now apply quiet_filter. }
    specialize (Hd (set_jobs rest st)). cbn [trace set_jobs] in Hd.
    unfold bind.
    destruct (dispatch env (cid, msg) (set_jobs rest st)) as [st' [v|e]];
      cbn [fst snd raises] in *.
    + split; [|intros _; now exists (trace st')].
      simpl. now rewrite List.filter_app, Hd.
    + split; [now rewrite app_nil_r | discriminate].
Qed.

(** X6: handling a frame or waking up never changes the registry of
    commands or the [started] flag, whatever the jobs do. *)
Theorem message_path_keeps_registry_and_flag {Arbiter : Type} (env : Env Arbiter)
    (st : State Arbiter) (raw : Job) :
  commands (fst (handle_message env raw st)) = commands st
  /\ started (fst (handle_message env raw st)) = started st
  /\ commands (fst (wakeup env st)) = commands st
  /\ started (fst (wakeup env st)) = started st.
Proof.
  repeat split.
  - apply (frame_handle_message env commands); repeat intro; reflexivity.
  - apply (frame_handle_message env started); repeat intro; reflexivity.
  - apply (frame_wakeup env commands); repeat intro; reflexivity.
  - apply (frame_wakeup env started); repeat intro; reflexivity.
Qed.

(** X7: a job without an identity is never answered, whatever its body
    holds: not on a decoding failure, not on an error of the command, not
    on success. *)
Theorem anonymous_job_never_answered {Arbiter : Type} (env : Env Arbiter)
    (st : State Arbiter) (msg : string) :
  sends (trace (fst (dispatch env (None, msg) st))) = sends (trace st).
Proof.
  apply (keeps_dispatch env (fun s => sends (trace s))).
  - intros a s. reflexivity.
  - intros c body Hc. discriminate Hc.
  - left. split; now apply quiet_filter.
Qed.

(** X8: only a request naming quit reaches the quit sequence: for any
    other job, decodable or not, answered or not, [dispatch] neither
    flushes the stream nor calls [arbiter.stop()]. *)
Theorem only_quit_reaches_shutdown {Arbiter : Type} (env : Env Arbiter)
    (st : State Arbiter) (cid : option ClientId) (msg : string) :
  names_quit env msg = false ->
  List.filter is_shutdown (trace (fst (dispatch env (cid, msg) st))) =
    List.filter is_shutdown (trace st).
Proof.
  intros Hq.
  apply (keeps_dispatch env (fun s => List.filter is_shutdown (trace s))).
  - intros a s. reflexivity.
  - intros c body _. now apply quiet_filter.
  - now right.
Qed.

Lemma only_quit_reaches_shutdown_witness :
  List.filter is_shutdown
    (trace (fst (dispatch Sample.env (Sample.client, Sample.doc_spawn)
                   (Sample.controller Sample.registry true [])))) = [].
Proof.
  apply (only_quit_reaches_shutdown Sample.env
           (Sample.controller Sample.registry true [])
           Sample.client Sample.doc_spawn).
  reflexivity.
Defined.

(** X9: every response [dispatch] sends for a job is addressed to the
    identity that came with that job; nothing is sent to another
    connection. *)
Theorem responses_go_to_the_requester {Arbiter : Type} (env : Env Arbiter)
    (st : State Arbiter) (c : ClientId) (msg : string) :
  List.filter (sent_elsewhere c) (trace (fst (dispatch env (Some c, msg) st))) =
    List.filter (sent_elsewhere c) (trace st).
Proof.
  apply (keeps_dispatch env (fun s => List.filter (sent_elsewhere c) (trace s))).
  - intros a s. reflexivity.
  - intros c' body Hc. injection Hc as <-.
    apply quiet_filter. simpl. now rewrite String.eqb_refl.
  - left. split; now apply quiet_filter.
Qed.

(** ** Requests whose command returns *)

Section Success.

Context {Arbiter : Type}.
Variable env : Env Arbiter.

Lemma dispatch_decoded (st : State Arbiter) (cid : option ClientId)
    (msg : string) (d : list (string * json)) :
  json_loads env msg = Some (JObj d) ->
  dispatch env (cid, msg) st =
    (let cmd_name :=
       match Py.dict_get "command" d with Some v => v | None => JNull end in
     let cast := declared_cast d in
     resp <- execute_command env cmd_name (properties_of d) cid msg cast ;;
     match (if Py.is_none resp then Envelope.ok None else resp) with
     | JObj d' => dispatch_reply env cmd_name cid msg d' cast
     | JList l => dispatch_reply env cmd_name cid msg [("results", JList l)] cast
     | other =>
         send_error env cid
           ("msg " +:+ repr_bytes env msg +:+ " tried to send a non-dict: "
              +:+ py_str env other)
           "server error" None cast BAD_MSG_DATA_ERROR
     end)%py st.
Proof.
  intros H. unfold dispatch. rewrite H. unfold py_get, bind at 1 2 3, ret.
  unfold properties_of, declared_cast. cbv zeta. unfold bind.
  match goal with
  | |- context [execute_command env ?n ?ps cid msg ?ca st] =>
      destruct (execute_command env n ps cid msg ca st) as [st' [resp|e]];
        [|reflexivity]
  end.
  destruct (if Py.is_none resp then Envelope.ok None else resp); reflexivity.
Qed.

Lemma execute_command_returns (st : State Arbiter) (name : string)
    (properties : json) (cid : option ClientId) (msg : string) (cast : bool)
    (a : Arbiter) (v : json) :
  executes_to env st name properties a v ->
  execute_command env (JStr name) properties cid msg cast st =
    (set_arbiter a st, Ret v).
Proof.
  intros (cmd & Hcmd & Hv & He).
  unfold execute_command, try_except, bind, py_lower, lookup_command, gets, ret,
    run_command.
  cbn. rewrite Hcmd. cbn. rewrite Hv, He. reflexivity.
Qed.

Lemma success_reaches_reply (st : State Arbiter) (cid : option ClientId)
    (msg : string) (d : list (string * json)) (name : string) (a : Arbiter)
    (v : json) (p : list (string * json)) :
  json_loads env msg = Some (JObj d) ->
  Py.dict_get "command" d = Some (JStr name) ->
  executes_to env st name (properties_of d) a v ->
  success_payload v = Some p ->
  dispatch env (cid, msg) st =
    dispatch_reply env (JStr name) cid msg p (declared_cast d) (set_arbiter a st).
Proof.
  intros Hl Hn He Hp. rewrite (dispatch_decoded st cid msg d Hl), Hn.
  cbv zeta. unfold bind at 1.
  rewrite (execute_command_returns st name _ cid msg _ a v He).
  destruct v; simpl in Hp; try discriminate; injection Hp as <-; reflexivity.
Qed.

End Success.

(** X10: a call-mode request with an identity whose command returns
    nothing, a mapping or a list gets exactly one response, the success
    envelope: minimal for nothing, carrying the mapping, or carrying the
    list under [results].  Unless the command is quit, [dispatch] then
    returns with the arbiter as the command left it. *)
Theorem success_is_answered_once {Arbiter : Type} (env : Env Arbiter)
    (st : State Arbiter) (c : ClientId) (msg : string)
    (d : list (string * json)) (name : string) (a : Arbiter) (v : json)
    (p : list (string * json)) :
  json_loads env msg = Some (JObj d) ->
  Py.dict_get "command" d = Some (JStr name) ->
  declared_cast d = false ->
  executes_to env st name (properties_of d) a v ->
  success_payload v = Some p ->
  sends (trace (fst (dispatch env (Some c, msg) st))) =
    sends (trace st) ++ [Send c (reply_text env p)]
  /\ (String.eqb (text_lower env name) "quit" = false ->
      dispatch env (Some c, msg) st =
        (set_trace (trace st ++ [Send c (reply_text env p)]) (set_arbiter a st),
         Ret JNull)).
Proof.
  intros Hl Hn Hc He Hp.
  rewrite (success_reaches_reply env st (Some c) msg d name a v p Hl Hn He Hp), Hc.
  unfold dispatch_reply, send_ok, send_response, call_flush, call_arbiter_stop,
    bind, py_lower, emit, modify, ret, raise, reply_text.
  cbn. destruct (String.eqb (text_lower env name) "quit"); cbn.
  - split; [|discriminate].
    destruct (stream_flush env); cbn;
      rewrite !sends_app; cbn; now rewrite !app_nil_r.
  - split; [|reflexivity]. now rewrite sends_app.
Qed.

Lemma success_is_answered_once_witness :
  dispatch Sample.env (Sample.client, Sample.doc_list)
    (Sample.controller Sample.registry true []) =
    (set_trace
       ([] ++ [Send "client-1"
                 (reply_text Sample.env [("results", JList [JStr "a"; JStr "b"])])])
       (set_arbiter Sample.fresh (Sample.controller Sample.registry true [])),
     Ret JNull).
Proof.
  apply (proj2 (success_is_answered_once Sample.env
                  (Sample.controller Sample.registry true []) "client-1"
                  Sample.doc_list [("command", JStr "list")] "list" Sample.fresh
                  (JList [JStr "a"; JStr "b"])
                  [("results", JList [JStr "a"; JStr "b"])]
                  eq_refl eq_refl eq_refl
                  (ex_intro _ Sample.cmd_list (conj eq_refl (conj eq_refl eq_refl)))
                  eq_refl)).
  reflexivity.
Defined.

(** X11: when the command returns a value that is neither nothing, a
    mapping nor a list (a string, a number, a boolean), the caller gets one
    response, the [BAD_MSG_DATA_ERROR] envelope with reason
    [server error], and [dispatch] returns there: even for quit the stream
    is not flushed and the arbiter is not stopped. *)
Theorem unstructured_result_is_an_error {Arbiter : Type} (env : Env Arbiter)
    (st : State Arbiter) (c : ClientId) (msg : string)
    (d : list (string * json)) (name : string) (a : Arbiter) (v : json) :
  json_loads env msg = Some (JObj d) ->
  Py.dict_get "command" d = Some (JStr name) ->
  declared_cast d = false ->
  executes_to env st name (properties_of d) a v ->
  success_payload v = None ->
  dispatch env (Some c, msg) st =
    (set_trace
       (trace st ++ [Send c (error_text env "server error" None BAD_MSG_DATA_ERROR)])
       (set_arbiter a st),
     Ret JNull).
Proof.
  intros Hl Hn Hc He Hp. rewrite (dispatch_decoded env st (Some c) msg d Hl), Hn.
  cbv zeta. unfold bind at 1.
  rewrite (execute_command_returns env st name _ (Some c) msg _ a v He), Hc.
  destruct v; simpl in Hp; try discriminate; reflexivity.
Qed.

Lemma unstructured_result_is_an_error_witness :
  dispatch Sample.env (Sample.client, Sample.doc_quit)
    (Sample.controller Sample.registry_odd true []) =
    (set_trace
       ([] ++ [Send "client-1"
                 (error_text Sample.env "server error" None BAD_MSG_DATA_ERROR)])
       (set_arbiter Sample.fresh (Sample.controller Sample.registry_odd true [])),
     Ret JNull).
Proof.
  apply (unstructured_result_is_an_error Sample.env
           (Sample.controller Sample.registry_odd true []) "client-1"
           Sample.doc_quit [("command", JStr "quit")] "quit" Sample.fresh
           (JStr "bye") eq_refl eq_refl eq_refl);
    [|reflexivity].
  exists Sample.cmd_bye. split; [reflexivity|]. split; reflexivity.
Defined.

(** X12: a quit request, in any letter case, whose command returns
    nothing, a mapping or a list, on a connection with an identity: the
    acknowledgement is handed to the stream first (none for a cast), then
    the stream is flushed, then [arbiter.stop()] is called on the arbiter as
    the command left it. *)
Theorem quit_acknowledges_then_stops {Arbiter : Type} (env : Env Arbiter)
    (st : State Arbiter) (c : ClientId) (msg : string)
    (d : list (string * json)) (name : string) (a : Arbiter) (v : json)
    (p : list (string * json)) :
  json_loads env msg = Some (JObj d) ->
  Py.dict_get "command" d = Some (JStr name) ->
  String.eqb (text_lower env name) "quit" = true ->
  executes_to env st name (properties_of d) a v ->
  success_payload v = Some p ->
  stream_flush env = None ->
  dispatch env (Some c, msg) st =
    (set_trace
       (trace st
          ++ (if declared_cast d then [] else [Send c (reply_text env p)])
          ++ [StreamFlush; ArbiterStop])
       (set_arbiter (arbiter_stop env a) st),
     Ret JNull).
Proof.
  intros Hl Hn Hq He Hp Hf.
  rewrite (success_reaches_reply env st (Some c) msg d name a v p Hl Hn He Hp).
  unfold dispatch_reply, send_ok, send_response, call_flush, call_arbiter_stop,
    bind, py_lower, emit, modify, ret, raise, reply_text.
  cbn. rewrite Hq, Hf. destruct st as [s q cmds a0 tr].
  destruct (declared_cast d); cbn; unfold set_trace; cbn;
    now rewrite <- !app_assoc.
Qed.

Lemma quit_acknowledges_then_stops_witness :
  dispatch Sample.env (Sample.client, Sample.doc_QUIT)
    (Sample.controller Sample.registry true []) =
    (set_trace
       ([] ++ [Send "client-1" (reply_text Sample.env [("status", JStr "ok")])]
           ++ [StreamFlush; ArbiterStop])
       (set_arbiter (arbiter_stop Sample.env Sample.fresh)
          (Sample.controller Sample.registry true [])),
     Ret JNull).
Proof.
  apply (quit_acknowledges_then_stops Sample.env
           (Sample.controller Sample.registry true []) "client-1"
           Sample.doc_QUIT [("command", JStr "QUIT")] "QUIT" Sample.fresh JNull
           [("status", JStr "ok")] eq_refl eq_refl eq_refl);
    [|reflexivity|reflexivity].
  exists Sample.cmd_quit. split; [reflexivity|]. split; reflexivity.
Defined.

(** ** Requests whose command raises *)

Lemma execute_command_fails {Arbiter : Type} (env : Env Arbiter)
    (st : State Arbiter) (c : ClientId) (msg name : string) (properties : json)
    (e : exn) :
  fails_with env st name properties e ->
  exists st1,
    trace st1 = trace st
    /\ execute_command env (JStr name) properties (Some c) msg false st =
         (set_trace (trace st ++ [Send c (failure_text env msg e)]) st1, Ret JNull).
Proof.
  intros (cmd & Hcmd & Hfail).
  unfold execute_command, try_except, bind, py_lower, lookup_command, gets, ret,
    raise, run_command, send_error, send_response, emit, modify, failure_text,
    error_text.
  cbn. rewrite Hcmd. cbn.
  destruct Hfail as [Hv | [Hv He]]; rewrite Hv.
  - exists st. split; [reflexivity|].
    destruct e as [k s]; destruct k; reflexivity.
  - destruct (execute cmd (arbiter st) properties) as [a r]. simpl in He. subst r.
    exists (set_arbiter a st). split; [reflexivity|].
    destruct e as [k s]; destruct k; reflexivity.
Qed.

(** X13: how a failure of the command reaches a call-mode caller.  A
    [MessageError] gives errno [MESSAGE_ERROR] and an [OSError] gives
    [OS_ERROR], both with the exception's message as the reason, verbatim,
    and no traceback; any other exception gives [COMMAND_ERROR] with the
    request text and the exception's message in the reason and the
    formatted traceback.  That envelope is the first of the two responses
    the caller gets. *)
Theorem failure_is_classified {Arbiter : Type} (env : Env Arbiter)
    (st : State Arbiter) (c : ClientId) (msg : string)
    (d : list (string * json)) (name : string) (e : exn) :
  json_loads env msg = Some (JObj d) ->
  Py.dict_get "command" d = Some (JStr name) ->
  declared_cast d = false ->
  fails_with env st name (properties_of d) e ->
  sends (trace (fst (dispatch env (Some c, msg) st))) =
    sends (trace st) ++ [Send c (failure_text env msg e); Send c (ok_text env)].
Proof.
  intros Hl Hn Hc Hf.
  destruct (execute_command_fails env st c msg name (properties_of d) e Hf)
    as (st1 & Htr & Hexec).
  rewrite (dispatch_decoded env st (Some c) msg d Hl), Hn, Hc.
  cbv zeta. unfold bind at 1. rewrite Hexec. cbn [Py.is_none Envelope.ok].
  destruct (dispatch_reply_minimal_ok env
              (set_trace (trace st ++ [Send c (failure_text env msg e)]) st1)
              c msg name) as (tail & Htail & Hsilent).
  rewrite Htail. cbn [trace set_trace].
  rewrite !sends_app, Hsilent. cbn. now rewrite <- app_assoc.
Qed.

Lemma failure_is_classified_witness :
  sends (trace (fst (dispatch Sample.env (Sample.client, Sample.doc_list)
                       (Sample.controller Sample.registry_odd true [])))) =
    sends [] ++
      [Send "client-1"
         (failure_text Sample.env Sample.doc_list (Exn MessageError "message invalid"));
       Send "client-1" (ok_text Sample.env)].
Proof.
  apply (failure_is_classified Sample.env
           (Sample.controller Sample.registry_odd true []) "client-1"
           Sample.doc_list [("command", JStr "list")] "list"
           (Exn MessageError "message invalid") eq_refl eq_refl eq_refl).
  exists Sample.cmd_strict. split; [reflexivity|]. left. reflexivity.
Defined.

(** ** What a request does to the arbiter *)

Lemma arbiter_send_response {Arbiter : Type} (env : Env Arbiter)
    (cid : option ClientId) (msg : string) (resp : json) (cast : bool) :
  keeps arbiter (send_response env cid msg resp cast).
Proof. intros st. destruct cast, cid; reflexivity. Qed.

Lemma arbiter_send_error {Arbiter : Type} (env : Env Arbiter)
    (cid : option ClientId) (msg reason : string) (tb : option string)
    (cast : bool) (errno : Errno) :
  keeps arbiter (send_error env cid msg reason tb cast errno).
Proof. intros st. destruct cast, cid; reflexivity. Qed.

Lemma arbiter_execute_command {Arbiter : Type} (env : Env Arbiter)
    (st : State Arbiter) (name : string) (properties : json)
    (cid : option ClientId) (msg : string) (cast : bool) :
  arbiter (fst (execute_command env (JStr name) properties cid msg cast st)) =
    arbiter_after_command env st name properties.
Proof.
  unfold arbiter_after_command, execute_command, try_except, bind, py_lower,
    lookup_command, gets, ret, raise, run_command.
  cbn. destruct (commands st !! text_lower env name) as [cmd|]; cbn.
  - destruct (validate cmd properties) as [e|].
    + destruct e as [k s]; destruct k; cbn; apply arbiter_send_error.
    + destruct (execute cmd (arbiter st) properties) as [a [v|e]]; cbn;
        [reflexivity|].
      destruct e as [k s]; destruct k; cbn;
        now rewrite arbiter_send_error.
  - destruct cast, cid; reflexivity.
Qed.

Lemma arbiter_dispatch_reply {Arbiter : Type} (env : Env Arbiter)
    (name : string) (cid : option ClientId) (msg : string)
    (resp : list (string * json)) (cast : bool) :
  String.eqb (text_lower env name) "quit" = false ->
  keeps arbiter (dispatch_reply env (JStr name) cid msg resp cast).
Proof.
  intros Hq st. unfold dispatch_reply, py_lower, bind, ret.
  pose proof (arbiter_send_response env cid msg (Envelope.ok (Some resp)) cast st)
    as Hs.
  unfold send_ok.
  destruct (send_response env cid msg (Envelope.ok (Some resp)) cast st)
    as [st' [u|e]]; [|exact Hs].
  now rewrite Hq.
Qed.

(** X14: what a request that does not name quit does to the arbiter
    depends on its command and properties only, not on the identity, the
    cast flag or the value or exception the execution ends with.  A
    registered command whose [validate] passes is executed, cast or not,
    and the arbiter is what [execute] left; an unknown command or a failed
    [validate] leaves the arbiter untouched. *)
Theorem arbiter_follows_the_command {Arbiter : Type} (env : Env Arbiter)
    (st : State Arbiter) (cid : option ClientId) (msg : string)
    (d : list (string * json)) (name : string) :
  json_loads env msg = Some (JObj d) ->
  Py.dict_get "command" d = Some (JStr name) ->
  String.eqb (text_lower env name) "quit" = false ->
  arbiter (fst (dispatch env (cid, msg) st)) =
    arbiter_after_command env st name (properties_of d).
Proof.
  intros Hl Hn Hq.
  rewrite (dispatch_decoded env st cid msg d Hl), Hn. cbv zeta.
  rewrite <- (arbiter_execute_command env st name (properties_of d) cid msg
                (declared_cast d)).
  unfold bind at 1.
  destruct (execute_command env (JStr name) (properties_of d) cid msg
              (declared_cast d) st) as [st' [resp|e]]; [|reflexivity].
  cbn [fst].
  destruct (if Py.is_none resp then Envelope.ok None else resp);
    first [now apply arbiter_dispatch_reply | apply arbiter_send_error].
Qed.

Lemma arbiter_follows_the_command_witness :
  arbiter (fst (dispatch Sample.env (None, Sample.doc_spawn)
                  (Sample.controller Sample.registry_odd true []))) =
    arbiter_after_command Sample.env (Sample.controller Sample.registry_odd true [])
      "spawn" (properties_of [("command", JStr "spawn")]).
Proof.
  apply (arbiter_follows_the_command Sample.env
           (Sample.controller Sample.registry_odd true []) None Sample.doc_spawn
           [("command", JStr "spawn")] "spawn");
    reflexivity.
Defined.

(** X15: an unknown command, in call mode with an identity: the first
    response is the [UNKNOWN_COMMAND] envelope whose reason is
    [unknown command: ] followed by the [repr] of the name as it was sent,
    not lowered; the second is the minimal success envelope.  The arbiter
    is only touched if the name is quit. *)
Theorem unknown_command_reports_the_name {Arbiter : Type} (env : Env Arbiter)
    (st : State Arbiter) (c : ClientId) (msg : string)
    (d : list (string * json)) (name : string) :
  json_loads env msg = Some (JObj d) ->
  Py.dict_get "command" d = Some (JStr name) ->
  declared_cast d = false ->
  commands st !! text_lower env name = None ->
  sends (trace (fst (dispatch env (Some c, msg) st))) =
    sends (trace st)
      ++ [Send c (error_text env ("unknown command: " +:+ repr env (JStr name))
                    None UNKNOWN_COMMAND);
          Send c (ok_text env)].
Proof.
  intros Hl Hn Hc Hcmd.
  rewrite (dispatch_decoded env st (Some c) msg d Hl), Hn, Hc.
  cbv zeta. unfold bind at 1.
  assert (Hexec :
    execute_command env (JStr name) (properties_of d) (Some c) msg false st =
      (set_trace
         (trace st ++ [Send c (error_text env
                                 ("unknown command: " +:+ repr env (JStr name))
                                 None UNKNOWN_COMMAND)]) st,
       Ret JNull)).
  { unfold execute_command, try_except, bind, py_lower, lookup_command, gets,
      ret, raise.
    cbn. rewrite Hcmd. reflexivity. }
  rewrite Hexec. cbn [Py.is_none Envelope.ok].
  match goal with
  | |- context [dispatch_reply env (JStr name) (Some c) msg _ false ?s0] =>
      destruct (dispatch_reply_minimal_ok env s0 c msg name)
        as (tail & Htail & Hsilent)
  end.
  rewrite Htail. cbn [trace set_trace].
  rewrite !sends_app, Hsilent. cbn. now rewrite <- app_assoc.
Qed.

Lemma unknown_command_reports_the_name_witness :
  sends (trace (fst (dispatch Sample.env (Sample.client, Sample.doc_nosuch)
                       (Sample.controller Sample.registry true [])))) =
    sends []
      ++ [Send "client-1"
            (error_text Sample.env
               ("unknown command: " +:+ repr Sample.env (JStr "nosuch"))
               None UNKNOWN_COMMAND);
          Send "client-1" (ok_text Sample.env)].
Proof.
  apply (unknown_command_reports_the_name Sample.env
           (Sample.controller Sample.registry true []) "client-1"
           Sample.doc_nosuch [("command", JStr "nosuch")] "nosuch");
    reflexivity.
Defined.

(** ** Envelopes that are not requests *)

(** X16: a body that decodes to something other than a mapping (a list, a
    string, a number, a boolean, null) makes [dispatch] raise
    [AttributeError] at [json_msg.get]; a mapping whose [command] is present
    but is not a string makes it raise [AttributeError] at
    [cmd_name.lower()].  In both cases nothing is sent and the controller is
    left exactly as it was. *)
Theorem malformed_envelope_raises {Arbiter : Type} (env : Env Arbiter)
    (st : State Arbiter) (cid : option ClientId) (msg : string) (v : json) :
  (json_loads env msg = Some v ->
   (forall d, v <> JObj d) ->
   dispatch env (cid, msg) st = (st, Raise (Exn AttributeError "get")))
  /\ (forall d, json_loads env msg = Some (JObj d) ->
                Py.dict_get "command" d = Some v ->
                (forall s, v <> JStr s) ->
                dispatch env (cid, msg) st = (st, Raise (Exn AttributeError "lower"))).
Proof.
  split.
  - intros Hl Hv. unfold dispatch. rewrite Hl.
    destruct v; try reflexivity. now destruct (Hv d).
  - intros d Hl Hn Hv. rewrite (dispatch_decoded env st cid msg d Hl), Hn.
    destruct v; try reflexivity. now destruct (Hv s).
Qed.

Lemma malformed_envelope_raises_witness :
  dispatch Sample.env (Sample.client, Sample.doc_array)
    (Sample.controller Sample.registry true []) =
    (Sample.controller Sample.registry true [], Raise (Exn AttributeError "get")).
Proof.
  apply (proj1 (malformed_envelope_raises Sample.env
                  (Sample.controller Sample.registry true [])
                  Sample.client Sample.doc_array (JList []))).
  - reflexivity.
  - intros d H. discriminate H.
Defined.

(** ** More on the lifecycle *)

(** X17: an exception of the stream's flush or close that is neither
    [IOError] nor [zmq.ZMQError] is not swallowed: it leaves [stop()], and
    neither the socket is closed nor the signal handler stopped. *)
Theorem stop_lets_other_errors_through {Arbiter : Type} (env : Env Arbiter)
    (st : State Arbiter) (e : exn) :
  started st = true ->
  is_io_error e = false ->
  (stream_flush env = Some e ->
   stop env st = (set_trace (trace st ++ [TimerStop; StreamFlush]) st, Raise e))
  /\ (stream_flush env = None ->
      stream_close env = Some e ->
      stop env st =
        (set_trace (trace st ++ [TimerStop; StreamFlush; StreamClose]) st, Raise e)).
Proof.
  intros Hs He. destruct st as [s q cmds a tr]. simpl in Hs. subst s.
  unfold stop, try_except, call_flush, call_close, emit, modify, gets, raise,
    ret, bind, set_trace.
  cbn [started jobs commands arbiter trace fst snd].
  split.
  - intros ->. rewrite He. cbn. now rewrite <- !app_assoc.
  - intros -> ->. rewrite He. cbn. now rewrite <- !app_assoc.
Qed.

Lemma stop_lets_other_errors_through_witness :
  stop (Sample.env_with (Some (Exn ValueError "bad state")) None)
    (Sample.controller Sample.registry true []) =
    (set_trace ([] ++ [TimerStop; StreamFlush])
       (Sample.controller Sample.registry true []),
     Raise (Exn ValueError "bad state")).
Proof.
  apply (proj1 (stop_lets_other_errors_through
                  (Sample.env_with (Some (Exn ValueError "bad state")) None)
                  (Sample.controller Sample.registry true [])
                  (Exn ValueError "bad state") eq_refl eq_refl)).
  reflexivity.
Defined.

(** X18: [stop()] changes nothing of the controller but the record of
    calls: queue, registry and arbiter stay, and [started] is not cleared.
    A second [stop()] on a started controller therefore goes through the
    teardown again. *)
Theorem stop_only_calls_collaborators {Arbiter : Type} (env : Env Arbiter)
    (st : State Arbiter) :
  fst (stop env st) = set_trace (trace (fst (stop env st))) st
  /\ started (fst (stop env st)) = started st.
Proof.
  assert (H : fst (stop env st) = set_trace (trace (fst (stop env st))) st).
  { destruct st as [s q cmds a tr].
    unfold stop, try_except, call_flush, call_close, emit, modify, gets, raise,
      ret, bind, set_trace.
    cbn [started jobs commands arbiter trace fst snd].
    destruct s; [|reflexivity].
    destruct (stream_flush env) as [e|]; cbn.
    - destruct (is_io_error e); reflexivity.
    - destruct (stream_close env) as [e|]; cbn; [|reflexivity].
      destruct (is_io_error e); reflexivity. }
  split; [exact H|]. now rewrite H.
Qed.

(** X19: a controller that is started and then stopped, with a stream
    that flushes and closes without error, has made exactly these calls, in
    this order: bind, stream set-up, timer start, timer stop, flush, stream
    close, socket close, signal-handler stop. *)
Theorem start_then_stop {Arbiter : Type} (env : Env Arbiter) (st : State Arbiter) :
  stream_flush env = None ->
  stream_close env = None ->
  (start ;; stop env)%py st =
    (set_started true
       (set_trace
          (trace st ++ [SocketBind; StreamInit; TimerStart; TimerStop;
                        StreamFlush; StreamClose; SocketClose; SysStop])
          st),
     Ret tt).
Proof.
  intros Hf Hc. destruct st as [s q cmds a tr].
  unfold start, stop, try_except, call_flush, call_close, emit, modify, gets,
    raise, ret, bind, set_trace, set_started.
  cbn [started jobs commands arbiter trace fst snd].
  rewrite Hf, Hc. cbn. now rewrite <- !app_assoc.
Qed.

Lemma start_then_stop_witness :
  (start ;; stop Sample.env)%py (init Sample.registry Sample.fresh) =
    (set_started true
       (set_trace
          ([] ++ [SocketBind; StreamInit; TimerStart; TimerStop;
                  StreamFlush; StreamClose; SocketClose; SysStop])
          (init Sample.registry Sample.fresh)),
     Ret tt).
Proof.
  apply (start_then_stop Sample.env (init Sample.registry Sample.fresh));
    reflexivity.
Defined.

Lemma wakeup_empty_queue_witness :
  wakeup Sample.env (Sample.controller Sample.registry true []) =
    (set_trace ([] ++ [ManageWatchers])
       (set_arbiter (arbiter_manage_watchers Sample.env Sample.fresh)
          (Sample.controller Sample.registry true [])),
     Ret tt).
Proof.
  apply (wakeup_empty_queue Sample.env (Sample.controller Sample.registry true [])).
  reflexivity.
Defined.

Lemma maintenance_runs_once_per_wakeup_witness :
  exists tr,
    trace (fst (wakeup Sample.env
                  (Sample.controller Sample.registry true
                     [(Sample.client, Sample.doc_list)]))) =
      tr ++ [ManageWatchers].
Proof.
  apply (proj2 (maintenance_runs_once_per_wakeup Sample.env
                  (Sample.controller Sample.registry true
                     [(Sample.client, Sample.doc_list)]))).
  reflexivity.
Defined.

(** ** How many responses a job gets *)

(** X21: for a job with an identity, [dispatch] only adds responses to
    those already sent, and at most two of them.  If the body does not
    decode to a cast request and [dispatch] returns, at least one response
    is sent: such a caller is never left without an answer. *)
Theorem responses_per_job {Arbiter : Type} (env : Env Arbiter)
    (st : State Arbiter) (c : ClientId) (msg : string) :
  exists extra,
    sends (trace (fst (dispatch env (Some c, msg) st))) = sends (trace st) ++ extra
    /\ length extra <= 2
    /\ (asks_cast env msg = false ->
        raises (snd (dispatch env (Some c, msg) st)) = false ->
        1 <= length extra).
Proof.
  unfold asks_cast, dispatch.
  destruct (json_loads env msg) as [[|b|n|s|l|d]|];
    try (exists []; cbn; rewrite app_nil_r; repeat split; [lia | discriminate]).
  2:{ eexists. cbn. rewrite sends_app. cbn. split; [reflexivity|]. cbn. split; lia. }
  unfold py_get, bind at 1 2 3, ret.
  fold (declared_cast d). fold (properties_of d).
  destruct (Py.dict_get "command" d) as [[|b|n|name|l|d']|];
    try (exists []; cbn; rewrite app_nil_r; repeat split; [lia | discriminate]).
  unfold execute_command, try_except, bind, py_lower, lookup_command, gets, ret,
    raise, run_command, send_error, dispatch_reply, send_ok, send_response,
    call_flush, call_arbiter_stop, emit, modify, bind, ret.
  cbn.
  destruct (declared_cast d);
    destruct (commands st !! text_lower env name) as [cmd|]; cbn.
  all: try destruct (validate cmd (properties_of d)) as [[k s]|]; cbn.
  all: try destruct k; cbn.
  all: try (destruct (execute cmd (arbiter st) (properties_of d))
              as [a [[|b|n|s|l|d']|[k s]]]); cbn.
  all: try destruct k; cbn.
  all: try destruct (String.eqb (text_lower env name) "quit"); cbn.
  all: try destruct (stream_flush env); cbn.
  all: rewrite ?sends_app; cbn; rewrite ?app_nil_r, <- ?app_assoc.
  all: eexists; (split; [first [reflexivity | symmetry; apply app_nil_r]|]); cbn.
  all: try (split; [lia|]; intros; first [lia | discriminate]).
Qed.

Lemma responses_per_job_witness :
  exists extra,
    sends (trace (fst (dispatch Sample.env (Some "client-1", Sample.doc_list)
                         (Sample.controller Sample.registry true [])))) =
      sends [] ++ extra
    /\ 1 <= length extra <= 2.
Proof.
  destruct (responses_per_job Sample.env
              (Sample.controller Sample.registry true []) "client-1"
              Sample.doc_list) as (extra & Hsent & Hmost & Hleast).
  exists extra. split; [exact Hsent|].
  split; [apply Hleast; reflexivity | exact Hmost].
Defined.
